(** * Reservo availability checks: a shallow embedding of [server.py]

    The two tools of the server, [check_date_availability] and
    [check_date_range_availability], are embedded together with the
    pieces of Python's [datetime] they rely on.

    - A [date] is the (year, month, day) triple of [datetime.date];
      comparison is Python's tuple comparison, [d + timedelta(days=1)]
      is the calendar successor, and [replace] validates its fields.
      Both raise past year 9999 ([MAXYEAR]), as the library does.
    - Exceptions are the [Raise] outcome of a small error monad; the
      two [except] clauses of each tool turn them into error results.
      Loops run on fuel, [Timeout] being the outcome of a loop that has
      not finished; the theorems show that it never occurs.
    - The HTTP client is a function [get_reservations] from
      (entity, year, month) to the list of records of that month; the
      calls made are logged in a writer monad, in order. A record
      carries its five keys, and the client returns a list: exceptions
      of the HTTP layer are outside the model.
    - [datetime.strptime(_, '%Y-%m-%d')] and
      [datetime.fromisoformat(_.replace('Z', '+00:00')).date()] are
      parameters of the development (they return [None] where Python
      raises [ValueError]); [strptime_ymd] and [isoformat_date] are
      instances for ASCII input, used to run the tools on examples.
    - A conflict or a reservation summary stores its two dates as
      [date]s: the source stores their [strftime('%Y-%m-%d')] text and
      parses it back with [strptime], which is taken to be the identity
      on dates. The payload of an error result is its kind; the text of
      the exception that the source appends to it is not modelled. *)

From Stdlib Require Import ZArith String Ascii List Lia DecimalString.
From stdpp Require Import base decidable option list gmap sets.
Import ListNotations.
Local Open Scope Z_scope.

(** ** Outcomes: return, raise, or run out of fuel *)

Inductive exn := ValueError | OverflowError.

Inductive outcome (A : Type) :=
| Ret (a : A)
| Raise (e : exn)
| Timeout.
Arguments Ret {A} a.
Arguments Raise {A} e.
Arguments Timeout {A}.

#[global] Instance outcome_ret : MRet outcome := fun A a => Ret a.
#[global] Instance outcome_bind : MBind outcome := fun A B f c =>
  match c with
  | Ret a => f a
  | Raise e => Raise e
  | Timeout => Timeout
  end.

(** [None] of a parser is the [ValueError] it raises. *)
Definition or_value_error {A} (o : option A) : outcome A :=
  match o with
  | Some a => Ret a
  | None => Raise ValueError
  end.

(** ** Calendar dates *)

Record date := mkDate { year : Z; month : Z; day : Z }.

Definition MINYEAR : Z := 1.
Definition MAXYEAR : Z := 9999.

Definition is_leap (y : Z) : bool :=
  (y mod 4 =? 0) && (negb (y mod 100 =? 0) || (y mod 400 =? 0)).

Definition days_in_month (y m : Z) : Z :=
  if m =? 2 then (if is_leap y then 29 else 28)
  else if (m =? 4) || (m =? 6) || (m =? 9) || (m =? 11) then 30
  else 31.

(** The check that every constructor of [datetime.date] performs. *)
Definition valid_dateb (d : date) : bool :=
  (MINYEAR <=? year d) && (year d <=? MAXYEAR) &&
  (1 <=? month d) && (month d <=? 12) &&
  (1 <=? day d) && (day d <=? days_in_month (year d) (month d)).

(** Comparison of the tuples (year, month, day). *)
Definition date_cmp (a b : date) : comparison :=
  match year a ?= year b with
  | Eq => match month a ?= month b with
          | Eq => day a ?= day b
          | c => c
          end
  | c => c
  end.

Definition date_ltb (a b : date) : bool :=
  match date_cmp a b with Lt => true | _ => false end.

Definition date_leb (a b : date) : bool :=
  match date_cmp a b with Gt => false | _ => true end.

(** [d.replace(year=y, month=m, day=dd)]: [ValueError] on a triple that
    is not a date. *)
Definition replace (y m dd : Z) : outcome date :=
  if valid_dateb (mkDate y m dd) then Ret (mkDate y m dd) else Raise ValueError.

(** [d + timedelta(days=1)]: the next calendar day; [OverflowError]
    after 9999-12-31. *)
Definition add_day (d : date) : outcome date :=
  if day d <? days_in_month (year d) (month d)
  then Ret (mkDate (year d) (month d) (day d + 1))
  else if month d <? 12 then Ret (mkDate (year d) (month d + 1) 1)
  else if year d <? MAXYEAR then Ret (mkDate (year d + 1) 1 1)
  else Raise OverflowError.

(** [date.toordinal()], as [_ymd2ord] computes it: the days before the
    year, the days before the month (a table, and one more after
    February of a leap year) and the day. *)
Definition days_before_year (y : Z) : Z :=
  let y := y - 1 in y * 365 + y / 4 - y / 100 + y / 400.

Definition DAYS_BEFORE_MONTH : list Z :=
  [0; 0; 31; 59; 90; 120; 151; 181; 212; 243; 273; 304; 334].

Definition days_before_month (y m : Z) : Z :=
  nth (Z.to_nat m) DAYS_BEFORE_MONTH 0
  + (if (2 <? m) && is_leap y then 1 else 0).

Definition toordinal (d : date) : Z :=
  days_before_year (year d) + days_before_month (year d) (month d) + day d.

(** Position of a date on a grid of 12 months of 31 days: the measure
    of the two loops. *)
Definition month_index (d : date) : Z := year d * 12 + (month d - 1).
Definition rank (d : date) : Z := month_index d * 31 + (day d - 1).

(** ** Reading dates: instances of the two parsers for ASCII text *)

Definition digit (a : ascii) : option Z :=
  let n := Z.of_N (N_of_ascii a) in
  if (48 <=? n) && (n <=? 57) then Some (n - 48) else None.

Definition checked (y m d : Z) : option date :=
  if valid_dateb (mkDate y m d) then Some (mkDate y m d) else None.

(** The day directive [%d]: 3[0-1], [1-2]\d, 0[1-9], [1-9] or a space
    and [1-9], and nothing after it. *)
Definition strp_day (l : list ascii) : option Z :=
  match l with
  | [a] => d ← digit a; if 1 <=? d then Some d else None
  | [a; b] =>
      if Ascii.eqb a " " then d ← digit b; if 1 <=? d then Some d else None
      else
        d1 ← digit a; d2 ← digit b;
        let n := 10 * d1 + d2 in
        if (1 <=? n) && (n <=? 31) then Some n else None
  | _ => None
  end.

(** The month directive [%m]: 1[0-2], 0[1-9] or [1-9], then the dash. *)
Definition strp_month (l : list ascii) : option (Z * list ascii) :=
  match l with
  | a :: b :: rest =>
      if Ascii.eqb b "-" then
        m ← digit a; if 1 <=? m then Some (m, rest) else None
      else
        match rest with
        | c :: rest' =>
            if Ascii.eqb c "-" then
              m1 ← digit a; m2 ← digit b;
              let n := 10 * m1 + m2 in
              if (1 <=? n) && (n <=? 12) then Some (n, rest') else None
            else None
        | [] => None
        end
  | _ => None
  end.

(** [datetime.strptime(s, '%Y-%m-%d')] on ASCII text: four digits of
    year, a dash, month, dash, day, and the date must exist. *)
Definition strptime_ymd (s : string) : option date :=
  match list_ascii_of_string s with
  | a :: b :: c :: d :: dash :: rest =>
      if Ascii.eqb dash "-" then
        y1 ← digit a; y2 ← digit b; y3 ← digit c; y4 ← digit d;
        '(m, rest') ← strp_month rest;
        dd ← strp_day rest';
        checked (1000 * y1 + 100 * y2 + 10 * y3 + y4) m dd
      else None
  | _ => None
  end.

(** [datetime.fromisoformat(s.replace('Z', '+00:00')).date()] on the
    date-only texts YYYY-MM-DD (two digits for month and day). *)
Definition isoformat_date (s : string) : option date :=
  match list_ascii_of_string s with
  | [a; b; c; d; dash1; e; f; dash2; g; h] =>
      if Ascii.eqb dash1 "-" && Ascii.eqb dash2 "-" then
        y1 ← digit a; y2 ← digit b; y3 ← digit c; y4 ← digit d;
        m1 ← digit e; m2 ← digit f; d1 ← digit g; d2 ← digit h;
        checked (1000 * y1 + 100 * y2 + 10 * y3 + y4) (10 * m1 + m2) (10 * d1 + d2)
      else None
  | _ => None
  end.

(** ** Records exchanged with the backend and with the caller *)

(** One record of the backend's monthly listing. *)
Record reservation := mkReservation {
  reservationId : Z;
  bookedBy : string;
  startDate : string;
  endDate : string;
  createdAt : string
}.

(** The dictionary built for an occupying reservation and for each
    conflict: id, booked_by, start_date, end_date, created_at. *)
Record summary := mkSummary {
  id : Z;
  booked_by : string;
  start_date : date;
  end_date : date;
  created_at : string
}.

(** An entry of [available_periods]. *)
Record period := mkPeriod { period_start : date; period_end : date }.

(** 'Start date must be before end date', 'Invalid date format. Use
    YYYY-MM-DD format. Error: ...' and 'Failed to check availability:
    ...'. *)
Inductive error_kind := StartNotBeforeEnd | InvalidDateFormat | FailedToCheck.

(** The three dictionaries [check_date_availability] can return. *)
Inductive date_result :=
| DateOccupied (date entity_id : string) (reservation : summary)
| DateAvailable (date entity_id message : string)
| DateError (error : error_kind).

(** The three dictionaries [check_date_range_availability] can return;
    [requested_period] holds the two input texts. *)
Inductive range_result :=
| RangeAvailable (entity_id : string) (requested_period : string * string)
    (message : string)
| RangeConflicts (entity_id : string) (requested_period : string * string)
    (conflicts : list summary) (available_periods : list period)
    (message : string)
| RangeError (error : error_kind).

(** Lookup of a key of the returned dictionary; [None] when the key is
    absent. *)
Definition get_available (r : range_result) : option bool :=
  match r with
  | RangeAvailable _ _ _ => Some true
  | RangeConflicts _ _ _ _ _ => Some false
  | RangeError _ => None
  end.

Definition get_requested_period (r : range_result) : option (string * string) :=
  match r with
  | RangeAvailable _ p _ | RangeConflicts _ p _ _ _ => Some p
  | RangeError _ => None
  end.

Definition get_conflicts (r : range_result) : option (list summary) :=
  match r with
  | RangeConflicts _ _ cs _ _ => Some cs
  | _ => None
  end.

Definition get_available_periods (r : range_result) : option (list period) :=
  match r with
  | RangeConflicts _ _ _ ps _ => Some ps
  | _ => None
  end.

Definition get_error (r : range_result) : option error_kind :=
  match r with
  | RangeError e => Some e
  | _ => None
  end.

(** ** The log of backend calls *)

(** One call [client.get_reservations(entity_id, year, month)]. *)
Definition fetch_call : Type := string * Z * Z.

(** A computation that logs the calls it makes, in order. *)
Definition fetching (A : Type) : Type := list fetch_call * outcome A.

#[global] Instance fetching_ret : MRet fetching := fun A a => ([], Ret a).
#[global] Instance fetching_bind : MBind fetching := fun A B f c =>
  match c with
  | (log, Ret a) => let '(log', r) := f a in (log ++ log', r)
  | (log, Raise e) => (log, Raise e)
  | (log, Timeout) => (log, Timeout)
  end.

Definition pure_step {A} (c : outcome A) : fetching A := ([], c).

(** [len(conflicts)] in decimal. *)
Definition decimal (n : nat) : string :=
  NilEmpty.string_of_uint (Nat.to_uint n).

(** Python's four comparisons of dates. *)
Definition date_gtb (a b : date) : bool :=
  match date_cmp a b with Gt => true | _ => false end.

Definition date_geb (a b : date) : bool :=
  match date_cmp a b with Lt => false | _ => true end.

(** ** The two tools *)

Section Server.

(** [datetime.strptime(s, '%Y-%m-%d')]. *)
Variable strptime : string → option date.
(** [datetime.fromisoformat(s.replace('Z', '+00:00')).date()]. *)
Variable fromisoformat_date : string → option date.
(** [ReservationClient.get_reservations]. *)
Variable get_reservations : string → Z → Z → list reservation.

Definition fetch (entity_id : string) (y m : Z) : fetching (list reservation) :=
  ([(entity_id, y, m)], Ret (get_reservations entity_id y m)).

Definition summary_of (r : reservation) (s e : date) : summary :=
  {| id := reservationId r; booked_by := bookedBy r;
     start_date := s; end_date := e; created_at := createdAt r |}.

(** The [for] loop of [check_date_availability]: the summary of the
    first reservation with [start <= check_date < end]. *)
Fixpoint first_occupying (check_date : date) (reservations : list reservation)
  : outcome (option summary) :=
  match reservations with
  | [] => Ret None
  | r :: rest =>
      s ← or_value_error (fromisoformat_date (startDate r));
      e ← or_value_error (fromisoformat_date (endDate r));
      if date_leb s check_date && date_ltb check_date e
      then Ret (Some (summary_of r s e))
      else first_occupying check_date rest
  end.

(** The two [except] clauses of a tool: [ValueError] first, then any
    other exception; [err] builds the dictionary with the 'error' key. *)
Definition on_error {A} (err : error_kind → A) (o : outcome A) : outcome A :=
  match o with
  | Raise ValueError => Ret (err InvalidDateFormat)
  | Raise _ => Ret (err FailedToCheck)
  | o => o
  end.

Definition try_except {A} (err : error_kind → A) (c : fetching A) : fetching A :=
  (c.1, on_error err c.2).

Definition check_date_availability (entity_id date : string) : fetching date_result :=
  try_except DateError (
    check_date ← pure_step (or_value_error (strptime date));
    reservations ← fetch entity_id (year check_date) (month check_date);
    found ← pure_step (first_occupying check_date reservations);
    mret (match found with
          | Some s => DateOccupied date entity_id s
          | None =>
              DateAvailable date entity_id
                ("Entity " ++ entity_id ++ " is available on " ++ date)%string
          end)).

(** The [while current <= end_dt] loop that collects the months. *)
Fixpoint months_loop (fuel : nat) (current end_dt : date)
    (months_to_check : gset (Z * Z)) : outcome (gset (Z * Z)) :=
  match fuel with
  | O => Timeout
  | S fuel' =>
      if date_leb current end_dt then
        let months_to_check := {[ (year current, month current) ]} ∪ months_to_check in
        next ← (if month current =? 12
                then replace (year current + 1) 1 (day current)
                else replace (year current) (month current + 1) (day current));
        months_loop fuel' next end_dt months_to_check
      else Ret months_to_check
  end.

(** The [for year, month in months_to_check] loop. *)
Fixpoint fetch_all (entity_id : string) (months : list (Z * Z))
  : fetching (list reservation) :=
  match months with
  | [] => mret []
  | (y, m) :: rest =>
      reservations ← fetch entity_id y m;
      more ← fetch_all entity_id rest;
      mret (reservations ++ more)
  end.

(** The loop that finds the conflicts, in the order of
    [all_reservations]. *)
Fixpoint find_conflicts (start_dt end_dt : date) (all_reservations : list reservation)
  : outcome (list summary) :=
  match all_reservations with
  | [] => Ret []
  | r :: rest =>
      res_start ← or_value_error (fromisoformat_date (startDate r));
      res_end ← or_value_error (fromisoformat_date (endDate r));
      conflicts ← find_conflicts start_dt end_dt rest;
      if date_ltb start_dt res_end && date_gtb end_dt res_start
      then Ret (summary_of r res_start res_end :: conflicts)
      else Ret conflicts
  end.

(** [conflict_start <= d < conflict_end]. *)
Definition blocks (d : date) (conflict : summary) : bool :=
  date_leb (start_date conflict) d && date_ltb d (end_date conflict).

(** The inner [for conflict in conflicts] loops: the first conflict
    that holds [d], if any. *)
Definition blocking_reservation (conflicts : list summary) (d : date)
  : option summary :=
  List.find (blocks d) conflicts.

(** The [while period_end < end_dt.date()] loop. *)
Fixpoint extend_period (fuel : nat) (conflicts : list summary) (end_dt : date)
    (period_end : date) : outcome date :=
  match fuel with
  | O => Timeout
  | S fuel' =>
      if date_ltb period_end end_dt then
        next_day ← add_day period_end;
        match blocking_reservation conflicts next_day with
        | None => extend_period fuel' conflicts end_dt next_day
        | Some _ => Ret period_end
        end
      else Ret period_end
  end.

(** The [while current_date < end_dt.date()] loop. *)
Fixpoint scan_periods (fuel : nat) (conflicts : list summary) (end_dt : date)
    (current_date : date) (available_periods : list period)
  : outcome (list period) :=
  match fuel with
  | O => Timeout
  | S fuel' =>
      if date_ltb current_date end_dt then
        match blocking_reservation conflicts current_date with
        | None =>
            period_end ← extend_period fuel conflicts end_dt current_date;
            next ← add_day period_end;
            scan_periods fuel' conflicts end_dt next
              (available_periods ++ [mkPeriod current_date period_end])
        | Some conflict =>
            scan_periods fuel' conflicts end_dt (end_date conflict)
              available_periods
        end
      else Ret available_periods
  end.

(** Fuel for the two loops: one more than the months, and than the
    days, between the two dates. *)
Definition months_fuel (start_dt end_dt : date) : nat :=
  S (S (Z.to_nat (month_index end_dt - month_index start_dt))).

Definition days_fuel (start_dt end_dt : date) : nat :=
  S (Z.to_nat (rank end_dt - rank start_dt)).

(** The body of [check_date_range_availability] from the conflict loop
    to the last [return], for the records gathered by the fetch loop. *)
Definition reconcile (entity_id start_date end_date : string)
    (start_dt end_dt : date) (all_reservations : list reservation)
  : outcome range_result :=
  conflicts ← find_conflicts start_dt end_dt all_reservations;
  match conflicts with
  | [] =>
      Ret (RangeAvailable entity_id (start_date, end_date)
             ("Entity " ++ entity_id ++ " is completely available from "
              ++ start_date ++ " to " ++ end_date)%string)
  | _ =>
      available_periods ←
        scan_periods (days_fuel start_dt end_dt) conflicts end_dt start_dt [];
      Ret (RangeConflicts entity_id (start_date, end_date) conflicts
             available_periods
             ("Entity " ++ entity_id ++ " has " ++ decimal (length conflicts)
              ++ " conflicting reservation(s) in the requested period")%string)
  end.

Definition check_date_range_availability (entity_id start_date end_date : string)
  : fetching range_result :=
  try_except RangeError (
    start_dt ← pure_step (or_value_error (strptime start_date));
    end_dt ← pure_step (or_value_error (strptime end_date));
    if date_geb start_dt end_dt then mret (RangeError StartNotBeforeEnd)
    else
      current ← pure_step (replace (year start_dt) (month start_dt) 1);
      months_to_check ←
        pure_step (months_loop (months_fuel start_dt end_dt) current end_dt ∅);
      all_reservations ← fetch_all entity_id (elements months_to_check);
      pure_step (reconcile entity_id start_date end_date start_dt end_dt
                   all_reservations)).

End Server.

(** ** Backends and records of the examples *)

(** The reservation of the scenario of March 2024: id 1, from
    2024-03-05 to 2024-03-10. *)
Definition march_reservation : reservation :=
  mkReservation 1 "ann" "2024-03-05" "2024-03-10" "2024-02-20".

(** A reservation whose end date is before its start date, and one of
    no day at all. *)
Definition inverted_reservation : reservation :=
  mkReservation 7 "bob" "2024-03-10" "2024-03-05" "2024-02-21".


(** A backend that lists one record under its month, March 2024, and
    nothing elsewhere; a backend that has no record. *)
Definition backend_of (r : reservation) (_ : string) (y m : Z) : list reservation :=
  if (y =? 2024) && (m =? 3) then [r] else [].

Definition empty_backend (_ : string) (_ _ : Z) : list reservation := [].

(** The tools on ASCII text. *)
Definition range_check :=
  check_date_range_availability strptime_ymd isoformat_date.

Definition date_check :=
  check_date_availability strptime_ymd isoformat_date.

Arguments decimal : simpl never.
Arguments months_fuel : simpl never.
Arguments days_fuel : simpl never.

(** ** Vocabulary of the statements *)

(** The dates a parser or the backend can produce. *)
Definition valid_date (d : date) : Prop := valid_dateb d = true.

Definition valid_summary (c : summary) : Prop :=
  valid_date (start_date c) ∧ valid_date (end_date c).

(** The calendar month (y, m) lies between the month of [a] and the
    month of [b], both included. *)
Definition month_between (a b : date) (ym : Z * Z) : Prop :=
  1 ≤ ym.2 ≤ 12 ∧
  year a * 12 + (month a - 1) ≤ ym.1 * 12 + (ym.2 - 1) ≤ year b * 12 + (month b - 1).

(** The last month a date can lie in. *)
Definition in_last_month (d : date) : Prop := year d = MAXYEAR ∧ month d = 12.

(** A day of the half-open interval of a period, of a conflict, of the
    query. *)
Definition in_period (d : date) (p : period) : bool :=
  date_leb (period_start p) d && date_ltb d (period_end p).

Definition in_query (start_dt end_dt d : date) : bool :=
  date_leb start_dt d && date_ltb d end_dt.

(** The overlap test of the conflict loop, on the dates of a record. *)
Definition overlaps (start_dt end_dt res_start res_end : date) : bool :=
  date_ltb start_dt res_end && date_gtb end_dt res_start.

(** Both timestamps of a record can be read. *)
Definition readable (iso : string → option date) (r : reservation) : Prop :=
  is_Some (iso (startDate r)) ∧ is_Some (iso (endDate r)).

(** A record that can be read and whose interval does not hold [d];
    a record that can be read and does not overlap the query. *)
Definition misses (iso : string → option date) (d : date) (r : reservation) : Prop :=
  ∃ s e, iso (startDate r) = Some s ∧ iso (endDate r) = Some e ∧
    date_leb s d && date_ltb d e = false.

Definition disjoint_from (iso : string → option date) (start_dt end_dt : date)
    (r : reservation) : Prop :=
  ∃ s e, iso (startDate r) = Some s ∧ iso (endDate r) = Some e ∧
    overlaps start_dt end_dt s e = false.


(** The backend calls for the months of a list, and the records they
    return, in that order. *)
Definition calls_of (entity_id : string) (months : list (Z * Z)) : list fetch_call :=
  (λ ym, (entity_id, ym.1, ym.2)) <$> months.

Definition records_of (get : string → Z → Z → list reservation)
    (entity_id : string) (months : list (Z * Z)) : list reservation :=
  mjoin ((λ ym, get entity_id ym.1 ym.2) <$> months).

(** ** Vocabulary of the further properties *)

(** A day of a period read as a closed interval, both dates included. *)
Definition in_closed (d : date) (p : period) : bool :=
  date_leb (period_start p) d && date_leb d (period_end p).

(** No conflict of the list holds the day. *)
Definition unblocked (conflicts : list summary) (d : date) : Prop :=
  Forall (λ c, blocks d c = false) conflicts.

(** The conflict that one record contributes, if it does. *)
Definition conflict_of (iso : string → option date) (start_dt end_dt : date)
    (r : reservation) : option summary :=
  match iso (startDate r), iso (endDate r) with
  | Some s, Some e =>
      if overlaps start_dt end_dt s e then Some (summary_of r s e) else None
  | _, _ => None
  end.

(** The calendar month of a month index. *)
Definition month_of_index (i : Z) : Z * Z := (i / 12, i mod 12 + 1).

(** [s.rstrip(c)] for a single character [c]: [s] without the
    characters [c] at its end. *)
Fixpoint rstrip (c : ascii) (s : string) : string :=
  match s with
  | EmptyString => EmptyString
  | String a rest =>
      match rstrip c rest with
      | EmptyString => if Ascii.eqb a c then EmptyString else String a EmptyString
      | kept => String a kept
      end
  end.

(** [ReservationClient.__init__]: the base URL that the client keeps. *)
Definition ReservationClient_base_url (base_url : string) : string :=
  rstrip "/" base_url.

(** The text of [n] characters [c]. *)
Fixpoint repeat_char (c : ascii) (n : nat) : string :=
  match n with
  | O => EmptyString
  | S k => String c (repeat_char c k)
  end.

(** [d.strftime('%Y-%m-%d')] for a year of four digits: the year, the
    month and the day in decimal, padded with zeros. *)
Definition digit_char (k : Z) : ascii := ascii_of_N (Z.to_N (48 + k)).

Definition two_digits (n : Z) : string :=
  String (digit_char (n / 10)) (String (digit_char (n mod 10)) EmptyString).

Definition four_digits (n : Z) : string :=
  String (digit_char (n / 1000))
    (String (digit_char (n / 100 mod 10)) (two_digits (n mod 100))).

Definition strftime_ymd (d : date) : string :=
  (four_digits (year d) ++ "-" ++ two_digits (month d) ++ "-"
   ++ two_digits (day d))%string.

(** The periods that the scan adds from a cursor on: their bounds, the
    days they hold, their order and their ends. *)
Record scanned (conflicts : list summary) (end_dt current_date : date)
    (added : list period) : Prop := {
  scanned_bounds :
    Forall (λ p, valid_date (period_start p) ∧ valid_date (period_end p) ∧
                 date_leb current_date (period_start p) = true ∧
                 date_leb (period_start p) (period_end p) = true ∧
                 date_ltb (period_start p) end_dt = true ∧
                 date_leb (period_end p) end_dt = true) added;
  scanned_free :
    ∀ p d, p ∈ added → valid_date d → in_closed d p = true →
      unblocked conflicts d;
  scanned_all :
    ∀ d, valid_date d → date_leb current_date d = true →
      date_ltb d end_dt = true → unblocked conflicts d →
      Exists (λ p, in_closed d p = true) added;
  scanned_order :
    ∀ i j p q, added !! i = Some p → added !! j = Some q → (i < j)%nat →
      date_ltb (period_end p) (period_start q) = true;
  scanned_ends :
    Forall (λ p, period_end p = end_dt ∨
                 ∃ next, add_day (period_end p) = Ret next ∧
                         ¬ unblocked conflicts next) added
}.


(** The answer of the range check on the scenario of March 2024. *)
Definition march_conflicts : list summary :=
  [mkSummary 1 "ann" (mkDate 2024 3 5) (mkDate 2024 3 10) "2024-02-20"].

Definition march_periods : list period :=
  [mkPeriod (mkDate 2024 3 1) (mkDate 2024 3 4);
   mkPeriod (mkDate 2024 3 10) (mkDate 2024 3 15)].

Definition march_result : range_result :=
  RangeConflicts "room" ("2024-03-01"%string, "2024-03-15"%string)
    march_conflicts march_periods
    "Entity room has 1 conflicting reservation(s) in the requested period".

(** A record whose start cannot be read; a backend that lists the
    reservation of March 2024 under its month and another record under
    every other month. *)
Definition garbled_reservation : reservation :=
  mkReservation 9 "kim" "next week" "2024-03-10" "2024-02-23".

Definition busy_backend (_ : string) (y m : Z) : list reservation :=
  if (y =? 2024) && (m =? 3) then [march_reservation] else [inverted_reservation].

(** ** The parsers on examples *)

Example strptime_ymd_1 : strptime_ymd "2024-03-05" = Some (mkDate 2024 3 5).
Proof. reflexivity. Qed.
Example strptime_ymd_2 : strptime_ymd "2024-3-5" = Some (mkDate 2024 3 5).
Proof. reflexivity. Qed.
Example strptime_ymd_3 : strptime_ymd "2024-02-30" = None.
Proof. reflexivity. Qed.
Example strptime_ymd_4 : strptime_ymd "2024-13-01" = None.
Proof. reflexivity. Qed.
Example strptime_ymd_5 : strptime_ymd "05/03/2024" = None.
Proof. reflexivity. Qed.
Example isoformat_date_1 : isoformat_date "2024-02-29" = Some (mkDate 2024 2 29).
Proof. reflexivity. Qed.

(** ** Order and arithmetic of dates *)

Ltac cmp_cases :=
  repeat match goal with
  | |- context [?x ?= ?y] => destruct (Z.compare_spec x y)
  | H : context [?x ?= ?y] |- _ => destruct (Z.compare_spec x y)
  end.

Ltac date_order :=
  unfold date_ltb, date_leb, date_gtb, date_geb, date_cmp in *;
  cmp_cases; simpl in *; try congruence; try lia.

Lemma date_ltb_lt a b :
  date_ltb a b = true ↔
  year a < year b ∨ (year a = year b ∧
    (month a < month b ∨ (month a = month b ∧ day a < day b))).
Proof. split; intros H; date_order. Qed.

Lemma date_leb_le a b :
  date_leb a b = true ↔
  year a < year b ∨ (year a = year b ∧
    (month a < month b ∨ (month a = month b ∧ day a ≤ day b))).
Proof. split; intros H; date_order. Qed.


Lemma date_geb_leb a b : date_geb a b = date_leb b a.
Proof. date_order. Qed.

Lemma date_geb_ltb a b : date_geb a b = negb (date_ltb a b).
Proof. date_order. Qed.


Lemma date_le_lt_trans a b c :
  date_leb a b = true → date_ltb b c = true → date_ltb a c = true.
Proof. rewrite !date_ltb_lt, date_leb_le. lia. Qed.

Lemma date_ltb_leb a b : date_ltb a b = true → date_leb a b = true.
Proof. rewrite date_ltb_lt, date_leb_le. lia. Qed.

Lemma days_in_month_range y m : 28 ≤ days_in_month y m ≤ 31.
Proof.
  unfold days_in_month.
  destruct (m =? 2); [destruct (is_leap y); lia|].
  destruct ((m =? 4) || (m =? 6) || (m =? 9) || (m =? 11)); lia.
Qed.

Lemma valid_date_spec d :
  valid_date d ↔
  1 ≤ year d ≤ 9999 ∧ 1 ≤ month d ≤ 12 ∧
  1 ≤ day d ≤ days_in_month (year d) (month d).
Proof.
  unfold valid_date, valid_dateb, MINYEAR, MAXYEAR.
  rewrite !andb_true_iff, !Z.leb_le. lia.
Qed.

Lemma valid_date_bounds d :
  valid_date d →
  1 ≤ year d ≤ 9999 ∧ 1 ≤ month d ≤ 12 ∧ 1 ≤ day d ≤ 31.
Proof.
  rewrite valid_date_spec. pose proof (days_in_month_range (year d) (month d)). lia.
Qed.




Lemma replace_valid y m dd :
  valid_date (mkDate y m dd) → replace y m dd = Ret (mkDate y m dd).
Proof. unfold replace, valid_date. by intros ->. Qed.

(** The next day exists unless the date is the last one, is a date, is
    later, and no date lies in between. *)
Lemma add_day_Ret d d' :
  valid_date d → add_day d = Ret d' →
  valid_date d' ∧ date_ltb d d' = true ∧
  ∀ x, valid_date x → date_ltb d x = true → date_leb d' x = true.
Proof.
  intros Hd Hadd. pose proof Hd as Hd'. rewrite valid_date_spec in Hd.
  unfold add_day, MAXYEAR in Hadd.
  pose proof (days_in_month_range (year d) (month d)) as Hm.
  destruct (Z.ltb_spec (day d) (days_in_month (year d) (month d))).
  { injection Hadd as <-. split; [|split].
    - rewrite valid_date_spec. simpl. lia.
    - rewrite date_ltb_lt. simpl. lia.
    - intros x Hx. rewrite date_ltb_lt, date_leb_le. simpl. lia. }
  destruct (Z.ltb_spec (month d) 12).
  { injection Hadd as <-. split; [|split].
    - rewrite valid_date_spec. simpl.
      pose proof (days_in_month_range (year d) (month d + 1)). lia.
    - rewrite date_ltb_lt. simpl. lia.
    - intros x Hx. rewrite valid_date_spec in Hx.
      rewrite date_ltb_lt, date_leb_le. simpl.
      intros [?|[Hy [?|[Hmo ?]]]]; [lia | lia |].
      rewrite Hy, Hmo in *. lia. }
  destruct (Z.ltb_spec (year d) 9999); [|discriminate].
  injection Hadd as <-. split; [|split].
  - rewrite valid_date_spec. simpl.
    pose proof (days_in_month_range (year d + 1) 1). lia.
  - rewrite date_ltb_lt. simpl. lia.
  - intros x Hx. rewrite valid_date_spec in Hx.
    rewrite date_ltb_lt, date_leb_le. simpl.
    intros [?|[Hy [?|[Hmo ?]]]]; [lia | lia |].
    rewrite Hy, Hmo in *. lia.
Qed.

(** [add_day] is [fromordinal (toordinal d + 1)]: the ordinal of the
    next day is one more. *)
Lemma days_before_year_succ y :
  days_before_year (y + 1) = days_before_year y + (if is_leap y then 366 else 365).
Proof.
  unfold days_before_year, is_leap. cbv zeta.
  replace (y + 1 - 1) with y by lia.
  destruct (Z.eqb_spec (y mod 4) 0), (Z.eqb_spec (y mod 100) 0),
    (Z.eqb_spec (y mod 400) 0); cbn [negb orb andb];
    Z.to_euclidean_division_equations; lia.
Qed.

Lemma days_before_month_succ y m :
  1 ≤ m ≤ 11 →
  days_before_month y (m + 1) = days_before_month y m + days_in_month y m.
Proof.
  intros Hm.
  assert (m = 1 ∨ m = 2 ∨ m = 3 ∨ m = 4 ∨ m = 5 ∨ m = 6 ∨ m = 7 ∨ m = 8 ∨
          m = 9 ∨ m = 10 ∨ m = 11) as Hcases by lia.
  unfold days_before_month, days_in_month.
  repeat destruct Hcases as [->|Hcases]; [..|subst m];
    cbn; destruct (is_leap y); reflexivity.
Qed.

Lemma add_day_toordinal d d' :
  valid_date d → add_day d = Ret d' → toordinal d' = toordinal d + 1.
Proof.
  intros Hd Hadd. rewrite valid_date_spec in Hd.
  unfold add_day, MAXYEAR in Hadd. unfold toordinal.
  destruct (Z.ltb_spec (day d) (days_in_month (year d) (month d))).
  { injection Hadd as <-. simpl. lia. }
  destruct (Z.ltb_spec (month d) 12).
  { injection Hadd as <-. simpl. rewrite days_before_month_succ by lia. lia. }
  destruct (Z.ltb_spec (year d) 9999); [|discriminate].
  injection Hadd as <-. simpl. rewrite days_before_year_succ.
  assert (month d = 12) as Hm by lia. rewrite Hm in *.
  assert (days_before_month (year d + 1) 1 = 0) as -> by reflexivity.
  assert (days_before_month (year d) 12
          = 334 + if is_leap (year d) then 1 else 0) as -> by reflexivity.
  assert (days_in_month (year d) 12 = 31) as Hdim by reflexivity.
  rewrite Hdim in *. destruct (is_leap (year d)); lia.
Qed.

Lemma add_day_before d x :
  valid_date d → valid_date x → date_ltb d x = true → ∃ d', add_day d = Ret d'.
Proof.
  intros Hd Hx Hlt. rewrite valid_date_spec in Hd, Hx.
  rewrite date_ltb_lt in Hlt. unfold add_day, MAXYEAR.
  destruct (Z.ltb_spec (day d) (days_in_month (year d) (month d))); [eauto|].
  destruct (Z.ltb_spec (month d) 12); [eauto|].
  destruct (Z.ltb_spec (year d) 9999); [eauto|].
  exfalso. destruct Hlt as [?|[Hy [?|[Hmo ?]]]]; [lia | lia |].
  rewrite Hy, Hmo in *. lia.
Qed.

(** ** The two loops of the free-period scan *)

Section Scan.

Variable conflicts : list summary.
Variable end_dt : date.
Hypothesis end_valid : valid_date end_dt.
Hypothesis conflicts_valid : Forall valid_summary conflicts.

Lemma blocking_reservation_Some d c :
  blocking_reservation conflicts d = Some c →
  c ∈ conflicts ∧ blocks d c = true.
Proof.
  unfold blocking_reservation. intros [Hin Hb]%find_some.
  by rewrite list_elem_of_In.
Qed.

Lemma blocking_reservation_None d c :
  blocking_reservation conflicts d = None → c ∈ conflicts → blocks d c = false.
Proof.
  unfold blocking_reservation. intros Hnone Hin%list_elem_of_In.
  apply (find_none _ _ Hnone _ Hin).
Qed.

(** The covered branch moves the cursor forward. *)
Lemma blocking_end_later d c :
  blocking_reservation conflicts d = Some c → date_ltb d (end_date c) = true.
Proof.
  intros [_ Hb]%blocking_reservation_Some. unfold blocks in Hb.
  by apply andb_true_iff in Hb as [_ ?].
Qed.





End Scan.

(** ** The month loop and the fetch loop *)

Lemma month_index_pair (y m y' m' : Z) :
  1 ≤ m ≤ 12 → 1 ≤ m' ≤ 12 →
  (y * 12 + (m - 1) = y' * 12 + (m' - 1) ↔ (y, m) = (y', m')).
Proof. intros ??. split; [intros ?; f_equal; lia | intros [= -> ->]; lia]. Qed.

(** Started on the first day of a month, the loop adds the months up
    to the month of [end_dt], unless that is the last month. *)
Lemma months_loop_Ret end_dt fuel current months :
  valid_date end_dt → ¬ in_last_month end_dt →
  valid_date current → day current = 1 →
  month_index current ≤ month_index end_dt + 1 →
  (Z.to_nat (month_index end_dt + 1 - month_index current) < fuel)%nat →
  ∃ ms, months_loop fuel current end_dt months = Ret ms ∧
    ∀ ym, ym ∈ ms ↔
      ym ∈ months ∨
      (1 ≤ ym.2 ≤ 12 ∧
       month_index current ≤ ym.1 * 12 + (ym.2 - 1) ≤ month_index end_dt).
Proof.
  intros Hend Hlast. revert current months.
  pose proof (valid_date_bounds _ Hend) as He.
  induction fuel as [|fuel IH]; intros cur acc Hcur Hday Hle Hfuel; [lia|].
  pose proof (valid_date_bounds _ Hcur) as Hc.
  assert (Hmi : date_leb cur end_dt = true ↔ month_index cur ≤ month_index end_dt).
  { rewrite date_leb_le. unfold month_index. lia. }
  cbn [months_loop]. destruct (date_leb cur end_dt) eqn:Hcmp.
  - apply proj1 in Hmi. specialize (Hmi eq_refl).
    assert (Hnot : month_index end_dt < 9999 * 12 + 11).
    { unfold in_last_month, MAXYEAR, month_index in *. lia. }
    set (next := if month cur =? 12 then mkDate (year cur + 1) 1 1
                 else mkDate (year cur) (month cur + 1) 1).
    assert (Hnv : valid_date next).
    { subst next. apply valid_date_spec. unfold month_index in *.
      destruct (Z.eqb_spec (month cur) 12); simpl.
      - pose proof (days_in_month_range (year cur + 1) 1). lia.
      - pose proof (days_in_month_range (year cur) (month cur + 1)). lia. }
    assert (Hni : month_index next = month_index cur + 1).
    { subst next. unfold month_index.
      destruct (Z.eqb_spec (month cur) 12); simpl; lia. }
    assert (Hstep : (if month cur =? 12
                     then replace (year cur + 1) 1 (day cur)
                     else replace (year cur) (month cur + 1) (day cur)) = Ret next).
    { subst next. rewrite Hday.
      destruct (month cur =? 12); by apply replace_valid. }
    rewrite Hstep. cbn [mbind outcome_bind].
    destruct (IH next ({[(year cur, month cur)]} ∪ acc) Hnv) as (ms & -> & Hms).
    { subst next. by destruct (month cur =? 12). }
    { lia. } { lia. }
    exists ms. split; [done|]. intros [y m]. rewrite Hms, Hni.
    rewrite elem_of_union, elem_of_singleton. simpl.
    pose proof (month_index_pair y m (year cur) (month cur)) as Hp.
    unfold month_index in *. split.
    + intros [[Heq | ?] | ?]; [|by left|right; lia].
      injection Heq as -> ->. right. lia.
    + intros [? | [Hm Hr]]; [by left; right|].
      destruct (decide (y * 12 + (m - 1) = year cur * 12 + (month cur - 1))) as [Heq|].
      * left; left. apply Hp; [lia..|done].
      * right. lia.
  - exists acc. split; [done|]. intros ym.
    assert (month_index end_dt < month_index cur); [|intuition lia].
    destruct (Z.le_gt_cases (month_index cur) (month_index end_dt)) as [Hm|]; [|lia].
    apply Hmi in Hm. congruence.
Qed.

(** In the last month the step past December has no date to go to. *)
Lemma months_loop_last end_dt fuel current months :
  valid_date end_dt → in_last_month end_dt →
  valid_date current → day current = 1 →
  (Z.to_nat (month_index end_dt + 1 - month_index current) < fuel)%nat →
  months_loop fuel current end_dt months = Raise ValueError.
Proof.
  intros Hend [Hy Hm]. unfold MAXYEAR in Hy. revert current months.
  pose proof (valid_date_bounds _ Hend) as He.
  induction fuel as [|fuel IH]; intros cur acc Hcur Hday Hfuel; [lia|].
  pose proof (valid_date_bounds _ Hcur) as Hc.
  assert (Hle : date_leb cur end_dt = true).
  { apply date_leb_le. lia. }
  cbn [months_loop]. rewrite Hle.
  destruct (Z.eqb_spec (month cur) 12) as [Hm12|Hm12].
  - destruct (decide (year cur = 9999)) as [Hy9|Hy9].
    + unfold replace. rewrite Hy9. done.
    + rewrite replace_valid.
      2:{ apply valid_date_spec. simpl. rewrite Hday.
          pose proof (days_in_month_range (year cur + 1) 1). lia. }
      cbn [mbind outcome_bind]. apply IH.
      * apply valid_date_spec. simpl. rewrite Hday.
        pose proof (days_in_month_range (year cur + 1) 1). lia.
      * by rewrite Hday.
      * unfold month_index in *. simpl. lia.
  - rewrite replace_valid.
    2:{ apply valid_date_spec. simpl. rewrite Hday.
        pose proof (days_in_month_range (year cur) (month cur + 1)). lia. }
    cbn [mbind outcome_bind]. apply IH.
    + apply valid_date_spec. simpl. rewrite Hday.
      pose proof (days_in_month_range (year cur) (month cur + 1)). lia.
    + by rewrite Hday.
    + unfold month_index in *. simpl. lia.
Qed.

Lemma fetch_all_eq get entity_id months :
  fetch_all get entity_id months =
  (calls_of entity_id months, Ret (records_of get entity_id months)).
Proof.
  induction months as [|[y m] rest IH]; [done|].
  cbn [fetch_all]. rewrite IH.
  unfold fetch, calls_of, records_of. cbn. by rewrite app_nil_r.
Qed.

(** ** The range check, step by step *)

Section Range.

Variable strptime : string → option date.
Variable fromisoformat_date : string → option date.
Variable get_reservations : string → Z → Z → list reservation.
Hypothesis strptime_valid : ∀ s d, strptime s = Some d → valid_date d.
Hypothesis fromisoformat_valid : ∀ s d, fromisoformat_date s = Some d → valid_date d.

Abbreviation check_range :=
  (check_date_range_availability strptime fromisoformat_date get_reservations).
Abbreviation check_single :=
  (check_date_availability strptime fromisoformat_date get_reservations).

(** A result without the 'error' key comes from two dates in order, a
    finished month loop and a finished reconciliation. *)
Lemma check_range_inv entity_id start_date end_date calls result :
  check_range entity_id start_date end_date = (calls, Ret result) →
  get_error result = None →
  ∃ start_dt end_dt current months,
    strptime start_date = Some start_dt ∧ strptime end_date = Some end_dt ∧
    date_ltb start_dt end_dt = true ∧
    replace (year start_dt) (month start_dt) 1 = Ret current ∧
    months_loop (months_fuel start_dt end_dt) current end_dt ∅ = Ret months ∧
    calls = calls_of entity_id (elements months) ∧
    reconcile fromisoformat_date entity_id start_date end_date start_dt end_dt
      (records_of get_reservations entity_id (elements months)) = Ret result.
Proof.
  unfold check_date_range_availability, try_except.
  destruct (strptime start_date) as [qs|]; [|by intros [= <- <-]].
  destruct (strptime end_date) as [qe|]; [|by intros [= <- <-]].
  cbn. rewrite date_geb_ltb.
  destruct (date_ltb qs qe) eqn:Hlt; [|by intros [= <- <-]].
  cbn. destruct (replace (year qs) (month qs) 1) as [cur|[]|] eqn:Hcur;
    [|by intros [= <- <-]..|done].
  cbn. destruct (months_loop _ _ _ _) as [ms|[]|] eqn:Hms;
    [|by intros [= <- <-]..|done].
  cbn. rewrite fetch_all_eq. cbn. rewrite app_nil_r.
  destruct (reconcile _ _ _ _ _ _ _) as [r|[]|] eqn:Hrec;
    [|by intros [= <- <-]..|done].
  cbn. intros [= <- <-] _. by exists qs, qe, cur, ms.
Qed.


Lemma find_conflicts_total start_dt end_dt all_reservations :
  Forall (readable fromisoformat_date) all_reservations →
  ∃ conflicts,
    find_conflicts fromisoformat_date start_dt end_dt all_reservations = Ret conflicts.
Proof.
  induction 1 as [|r rest [[rs Hs] [re He]] _ [cs IH]]; [by eexists|].
  cbn [find_conflicts]. rewrite Hs, He, IH. cbn. case_match; by eexists.
Qed.

(** What the conflict loop returns: the summaries of the records that
    pass the overlap test, all of whose timestamps were read. *)
Lemma find_conflicts_Ret start_dt end_dt all_reservations conflicts :
  find_conflicts fromisoformat_date start_dt end_dt all_reservations = Ret conflicts →
  Forall (readable fromisoformat_date) all_reservations ∧
  Forall valid_summary conflicts ∧
  ∀ c, c ∈ conflicts ↔
    ∃ r rs re, r ∈ all_reservations ∧
      fromisoformat_date (startDate r) = Some rs ∧
      fromisoformat_date (endDate r) = Some re ∧
      overlaps start_dt end_dt rs re = true ∧ c = summary_of r rs re.
Proof.
  revert conflicts.
  induction all_reservations as [|r rest IH]; intros cs.
  { intros [= <-]. repeat split; [done..| |].
    - by intros ?%elem_of_nil.
    - by intros (? & ? & ? & ?%elem_of_nil & _). }
  cbn [find_conflicts].
  destruct (fromisoformat_date (startDate r)) as [rs|] eqn:Hs; [|done].
  destruct (fromisoformat_date (endDate r)) as [re|] eqn:He; [|done]. cbn.
  destruct (find_conflicts _ _ _ rest) as [cs'| |]; [|done..]. cbn.
  destruct (IH cs' eq_refl) as (Hread & Hvalid & Hin).
  fold (overlaps start_dt end_dt rs re).
  destruct (overlaps start_dt end_dt rs re) eqn:Hov; intros [= <-].
  - repeat split.
    + constructor; [by split; eexists|done].
    + constructor; [split; simpl; eauto|done].
    + intros [->|Hc]%elem_of_cons.
      * exists r, rs, re. by rewrite elem_of_cons; auto.
      * apply Hin in Hc as (r' & rs' & re' & ? & ?).
        exists r', rs', re'. by rewrite elem_of_cons; auto.
    + intros (r' & rs' & re' & [->|Hr]%elem_of_cons & Hs' & He' & Hov' & ->).
      * rewrite Hs in Hs'. rewrite He in He'. injection Hs' as <-.
        injection He' as <-. by left.
      * right. apply Hin. by exists r', rs', re'.
  - repeat split.
    + constructor; [by split; eexists|done].
    + done.
    + intros Hc. apply Hin in Hc as (r' & rs' & re' & ? & ?).
      exists r', rs', re'. by rewrite elem_of_cons; auto.
    + intros (r' & rs' & re' & [->|Hr]%elem_of_cons & Hs' & He' & Hov' & ->).
      * rewrite Hs in Hs'. rewrite He in He'. injection Hs' as <-.
        injection He' as <-. congruence.
      * apply Hin. by exists r', rs', re'.
Qed.

(** The months of a query that does not end in the last month. *)
Lemma months_of_query start_dt end_dt :
  valid_date start_dt → valid_date end_dt → date_ltb start_dt end_dt = true →
  ¬ in_last_month end_dt →
  ∃ months,
    replace (year start_dt) (month start_dt) 1
      = Ret (mkDate (year start_dt) (month start_dt) 1) ∧
    months_loop (months_fuel start_dt end_dt)
      (mkDate (year start_dt) (month start_dt) 1) end_dt ∅ = Ret months ∧
    ∀ ym, ym ∈ months ↔ month_between start_dt end_dt ym.
Proof.
  intros Hs He Hlt Hlast.
  pose proof (valid_date_bounds _ Hs) as Hsb.
  pose proof (valid_date_bounds _ He) as Heb.
  assert (Hfirst : valid_date (mkDate (year start_dt) (month start_dt) 1)).
  { apply valid_date_spec. simpl.
    pose proof (days_in_month_range (year start_dt) (month start_dt)). lia. }
  assert (Hmi : month_index start_dt ≤ month_index end_dt).
  { apply date_ltb_lt in Hlt. unfold month_index. lia. }
  destruct (months_loop_Ret end_dt (months_fuel start_dt end_dt)
              (mkDate (year start_dt) (month start_dt) 1) ∅ He Hlast Hfirst eq_refl)
    as (ms & Hloop & Hms).
  { unfold month_index in *. simpl. lia. }
  { unfold months_fuel, month_index in *. simpl. lia. }
  exists ms. split; [by apply replace_valid|]. split; [done|].
  intros ym. rewrite Hms. unfold month_between, month_index. simpl.
  rewrite elem_of_empty. tauto.
Qed.

(** The range check on two dates in order, before the last month. *)
Lemma check_range_eq entity_id start_date end_date start_dt end_dt :
  strptime start_date = Some start_dt → strptime end_date = Some end_dt →
  date_ltb start_dt end_dt = true → ¬ in_last_month end_dt →
  ∃ months : gset (Z * Z),
    (∀ ym, ym ∈ months ↔ month_between start_dt end_dt ym) ∧
    check_range entity_id start_date end_date =
    (calls_of entity_id (elements months),
     on_error RangeError
       (reconcile fromisoformat_date entity_id start_date end_date start_dt end_dt
          (records_of get_reservations entity_id (elements months)))).
Proof.
  intros Hs He Hlt Hlast.
  destruct (months_of_query start_dt end_dt) as (ms & Hrep & Hloop & Hms);
    [by eauto..|].
  exists ms. split; [done|].
  unfold check_date_range_availability, try_except.
  rewrite Hs, He. cbn. rewrite date_geb_ltb, Hlt. cbn.
  rewrite Hrep. cbn. rewrite Hloop. cbn.
  rewrite fetch_all_eq. cbn. by rewrite app_nil_r.
Qed.

(** The records the range check reads: those of the calls it made. *)
Lemma elem_of_records_of entity_id months r :
  r ∈ records_of get_reservations entity_id months ↔
  ∃ ym, ym ∈ months ∧ r ∈ get_reservations entity_id ym.1 ym.2.
Proof.
  unfold records_of. rewrite list_elem_of_join. split.
  - intros (l & Hr & (ym & -> & Hym)%list_elem_of_fmap). eauto.
  - intros (ym & Hym & Hr). eexists. split; [done|].
    apply list_elem_of_fmap. eauto.
Qed.

Lemma elem_of_calls_of entity_id months e y m :
  (e, y, m) ∈ calls_of entity_id months ↔ e = entity_id ∧ (y, m) ∈ months.
Proof.
  unfold calls_of. rewrite list_elem_of_fmap. split.
  - by intros ([y' m'] & [= -> -> ->] & ?).
  - intros [-> ?]. by exists (y, m).
Qed.

(** The conflicts of a result: the list under the 'conflicts' key, no
    conflict when the key is absent. *)
Lemma reconcile_Ret entity_id start_date end_date start_dt end_dt all_reservations
    result :
  reconcile fromisoformat_date entity_id start_date end_date start_dt end_dt
    all_reservations = Ret result →
  ∃ conflicts,
    find_conflicts fromisoformat_date start_dt end_dt all_reservations
      = Ret conflicts ∧
    default [] (get_conflicts result) = conflicts ∧
    get_error result = None ∧
    (conflicts = [] → get_conflicts result = None ∧
       get_available_periods result = None ∧ get_available result = Some true) ∧
    (conflicts ≠ [] → ∃ periods,
       scan_periods (days_fuel start_dt end_dt) conflicts end_dt start_dt []
         = Ret periods ∧
       get_conflicts result = Some conflicts ∧
       get_available_periods result = Some periods ∧
       get_available result = Some false).
Proof.
  unfold reconcile.
  destruct (find_conflicts _ _ _ _) as [cs| |]; [|done..]. cbn.
  destruct cs as [|c cs].
  - intros [= <-]. exists []. by repeat split.
  - destruct (scan_periods _ _ _ _ _) as [ps| |] eqn:Hscan; [|done..]. cbn.
    intros [= <-]. exists (c :: cs). do 4 (split; [done|]). intros _. by exists ps.
Qed.




Lemma calls_of_inj (entity_id : string) :
  Inj (=) (=) (λ ym : Z * Z, (entity_id, ym.1, ym.2)).
Proof. intros [y m] [y' m'] [= -> ->]. done. Qed.

(** The calls of a range check that does not end in the last month. *)
Lemma range_calls_spec entity_id start_date end_date start_dt end_dt :
  strptime start_date = Some start_dt → strptime end_date = Some end_dt →
  date_ltb start_dt end_dt = true → ¬ in_last_month end_dt →
  NoDup (check_range entity_id start_date end_date).1 ∧
  ∀ e y m, (e, y, m) ∈ (check_range entity_id start_date end_date).1 ↔
    e = entity_id ∧ month_between start_dt end_dt (y, m).
Proof.
  intros Hs He Hlt Hlast.
  destruct (check_range_eq entity_id _ _ _ _ Hs He Hlt Hlast) as (ms & Hms & ->).
  cbn [fst]. split.
  - unfold calls_of. apply NoDup_fmap_2; [apply calls_of_inj|apply NoDup_elements].
  - intros e y m. rewrite elem_of_calls_of, elem_of_elements, Hms. done.
Qed.

(** ** The single-date check *)

Lemma first_occupying_found check_date before r after res_start res_end :
  Forall (misses fromisoformat_date check_date) before →
  fromisoformat_date (startDate r) = Some res_start →
  fromisoformat_date (endDate r) = Some res_end →
  date_leb res_start check_date = true → date_ltb check_date res_end = true →
  first_occupying fromisoformat_date check_date (before ++ r :: after)
    = Ret (Some (summary_of r res_start res_end)).
Proof.
  intros Hbefore Hs He Hle Hlt.
  induction Hbefore as [|r' rest (s & e & Hs' & He' & Hmiss) _ IH];
    cbn [app first_occupying].
  - by rewrite Hs, He; cbn [or_value_error mbind outcome_bind]; rewrite Hle, Hlt.
  - by rewrite Hs', He'; cbn [or_value_error mbind outcome_bind]; rewrite Hmiss.
Qed.

Lemma first_occupying_none check_date reservations :
  Forall (misses fromisoformat_date check_date) reservations →
  first_occupying fromisoformat_date check_date reservations = Ret None.
Proof.
  induction 1 as [|r' rest (s & e & Hs' & He' & Hmiss) _ IH];
    cbn [first_occupying]; [done|].
  by rewrite Hs', He'; cbn [or_value_error mbind outcome_bind]; rewrite Hmiss.
Qed.



Lemma check_date_eq entity_id date check_date :
  strptime date = Some check_date →
  check_single entity_id date =
  ([(entity_id, year check_date, month check_date)],
   on_error DateError
     (found ← first_occupying fromisoformat_date check_date
                (get_reservations entity_id (year check_date) (month check_date));
      Ret (match found with
           | Some s => DateOccupied date entity_id s
           | None =>
               DateAvailable date entity_id
                 ("Entity " ++ entity_id ++ " is available on " ++ date)%string
           end))).
Proof.
  intros Hd. unfold check_date_availability, try_except. rewrite Hd. cbn.
  destruct (first_occupying _ _ _) as [found| |]; done.
Qed.



(** ** The claims about the two tools *)



(** C7: when a fetched reservation holds the date
    ([start <= d < end]) and the reservations before it in the fetched
    list do not, the single-date check returns the occupied dictionary
    with the summary (and the id) of that reservation; when no fetched
    reservation holds the date it returns the available dictionary. *)
Theorem first_match_occupies entity_id date check_date :
  strptime date = Some check_date →
  (∀ before r after res_start res_end,
     get_reservations entity_id (year check_date) (month check_date)
       = before ++ r :: after →
     Forall (misses fromisoformat_date check_date) before →
     fromisoformat_date (startDate r) = Some res_start →
     fromisoformat_date (endDate r) = Some res_end →
     date_leb res_start check_date = true → date_ltb check_date res_end = true →
     check_single entity_id date =
     ([(entity_id, year check_date, month check_date)],
      Ret (DateOccupied date entity_id (summary_of r res_start res_end))) ∧
     id (summary_of r res_start res_end) = reservationId r) ∧
  (Forall (misses fromisoformat_date check_date)
     (get_reservations entity_id (year check_date) (month check_date)) →
   check_single entity_id date =
   ([(entity_id, year check_date, month check_date)],
    Ret (DateAvailable date entity_id
           ("Entity " ++ entity_id ++ " is available on " ++ date)%string))).
Proof.
  intros Hd. rewrite (check_date_eq _ _ _ Hd). split.
  - intros before r after rs re -> Hbefore Hs He Hle Hlt.
    by rewrite (first_occupying_found _ _ _ _ rs re).
  - intros Hnone. by rewrite first_occupying_none.
Qed.

(** C5, for queries that do not end in December 9999: the calls made
    to the backend are, without repetition, the calls for the entity
    and the calendar months from the month of the start date to the
    month of the end date. *)
Theorem fetched_months entity_id start_date end_date start_dt end_dt :
  strptime start_date = Some start_dt → strptime end_date = Some end_dt →
  date_ltb start_dt end_dt = true → ¬ in_last_month end_dt →
  NoDup (check_range entity_id start_date end_date).1 ∧
  ∀ e y m, (e, y, m) ∈ (check_range entity_id start_date end_date).1 ↔
    e = entity_id ∧ month_between start_dt end_dt (y, m).
Proof. apply range_calls_spec. Qed.

(** C10, for queries that do not end in December 9999: when the end
    date is the first day of a month, that month is fetched, although
    no day of the query lies in it. *)
Theorem end_month_fetched entity_id start_date end_date start_dt end_dt :
  strptime start_date = Some start_dt → strptime end_date = Some end_dt →
  date_ltb start_dt end_dt = true → ¬ in_last_month end_dt →
  day end_dt = 1 →
  (entity_id, year end_dt, month end_dt)
    ∈ (check_range entity_id start_date end_date).1 ∧
  ∀ d, valid_date d → in_query start_dt end_dt d = true →
    (year d, month d) ≠ (year end_dt, month end_dt).
Proof.
  intros Hs He Hlt Hlast Hday.
  pose proof (valid_date_bounds _ (strptime_valid _ _ Hs)) as Hsb.
  pose proof (valid_date_bounds _ (strptime_valid _ _ He)) as Heb.
  split.
  - apply (range_calls_spec _ _ _ _ _ Hs He Hlt Hlast). split; [done|].
    apply date_ltb_lt in Hlt. unfold month_between. simpl. lia.
  - intros d Hd%valid_date_bounds [_ Hin]%andb_true_iff [= Hy Hm].
    apply date_ltb_lt in Hin. lia.
Qed.

(** C8, for queries that do not end in December 9999: when every
    fetched reservation can be read and none overlaps the query, the
    range check returns the available dictionary, with the requested
    period and neither 'conflicts' nor 'available_periods'. *)
Theorem range_without_conflicts entity_id start_date end_date start_dt end_dt :
  strptime start_date = Some start_dt → strptime end_date = Some end_dt →
  date_ltb start_dt end_dt = true → ¬ in_last_month end_dt →
  (∀ y m r, month_between start_dt end_dt (y, m) →
     r ∈ get_reservations entity_id y m →
     disjoint_from fromisoformat_date start_dt end_dt r) →
  ∃ calls result,
    check_range entity_id start_date end_date = (calls, Ret result) ∧
    result = RangeAvailable entity_id (start_date, end_date)
               ("Entity " ++ entity_id ++ " is completely available from "
                ++ start_date ++ " to " ++ end_date)%string ∧
    get_available result = Some true ∧
    get_requested_period result = Some (start_date, end_date) ∧
    get_available_periods result = None ∧ get_conflicts result = None.
Proof.
  intros Hs He Hlt Hlast Hfree.
  destruct (check_range_eq entity_id _ _ _ _ Hs He Hlt Hlast) as (ms & Hms & ->).
  assert (Hall : Forall (disjoint_from fromisoformat_date start_dt end_dt)
                   (records_of get_reservations entity_id (elements ms))).
  { apply Forall_forall. intros r ([y m] & Hym & Hr)%elem_of_records_of.
    apply (Hfree y m); [|done]. by apply Hms, elem_of_elements. }
  destruct (find_conflicts_total start_dt end_dt
              (records_of get_reservations entity_id (elements ms)))
    as [cs Hcs].
  { eapply Forall_impl; [exact Hall|]. intros r (s & e & Hrs & Hre & _).
    by split; eexists. }
  assert (cs = []) as ->.
  { destruct cs as [|c cs]; [done|]. exfalso.
    apply find_conflicts_Ret in Hcs as (_ & _ & Hin).
    destruct (proj1 (Hin c)) as (r & rs & re & Hr & Hrs & Hre & Hov & _);
      [by left|].
    rewrite Forall_forall in Hall.
    destruct (Hall r Hr) as (s & e & Hrs' & Hre' & Hno). congruence. }
  unfold reconcile. rewrite Hcs. cbn. by eexists _, _.
Qed.


End Range.


(** ** The instances of the parsers return dates *)

Lemma checked_valid y m d x : checked y m d = Some x → valid_date x.
Proof.
  unfold checked. destruct (valid_dateb (mkDate y m d)) eqn:E; [|done].
  by intros [= <-].
Qed.

Lemma strptime_ymd_valid s d : strptime_ymd s = Some d → valid_date d.
Proof.
  unfold strptime_ymd. intros H.
  repeat (case_match; try done). simplify_option_eq.
  repeat (case_match; try done). simplify_option_eq.
  eauto using checked_valid.
Qed.

Lemma isoformat_date_valid s d : isoformat_date s = Some d → valid_date d.
Proof.
  unfold isoformat_date. intros H.
  repeat (case_match; try done). simplify_option_eq.
  eauto using checked_valid.
Qed.

(** ** Queries that end in December 9999 *)

(** The month loop steps past the month of the end date before it
    tests the cursor again; past December 9999 there is no date, the
    [ValueError] of [replace] reaches the first [except] clause and no
    call is made. *)
Lemma range_check_last_month strptime fromisoformat_date get_reservations
    entity_id start_date end_date start_dt end_dt :
  (∀ s d, strptime s = Some d → valid_date d) →
  strptime start_date = Some start_dt → strptime end_date = Some end_dt →
  date_ltb start_dt end_dt = true → in_last_month end_dt →
  check_date_range_availability strptime fromisoformat_date get_reservations
    entity_id start_date end_date
  = ([], Ret (RangeError InvalidDateFormat)).
Proof.
  intros Hvalid Hs He Hlt Hlast.
  pose proof (Hvalid _ _ Hs) as Hsv. pose proof (Hvalid _ _ He) as Hev.
  pose proof (valid_date_bounds _ Hsv) as Hsb.
  pose proof (valid_date_bounds _ Hev) as Heb.
  unfold check_date_range_availability, try_except.
  rewrite Hs, He. cbn. rewrite date_geb_ltb, Hlt. cbn.
  assert (Hfirst : valid_date (mkDate (year start_dt) (month start_dt) 1)).
  { apply valid_date_spec. simpl.
    pose proof (days_in_month_range (year start_dt) (month start_dt)). lia. }
  rewrite (replace_valid _ _ _ Hfirst). cbn.
  rewrite months_loop_last; [done..|].
  apply date_ltb_lt in Hlt. unfold months_fuel, month_index. simpl. lia.
Qed.

(** ** The scenario of March 2024 *)

(** C1: on the scenario, the range check lists the reservation as the
    conflict and returns the free periods 2024-03-01..2024-03-04 and
    2024-03-10..2024-03-15: the period before the conflict ends on the
    last free day, the period after it on the end date of the query. *)
Theorem march_scenario :
  range_check (backend_of march_reservation) "room" "2024-03-01" "2024-03-15" =
  ([("room"%string, 2024, 3)],
   Ret (RangeConflicts "room" ("2024-03-01"%string, "2024-03-15"%string)
          [mkSummary 1 "ann" (mkDate 2024 3 5) (mkDate 2024 3 10) "2024-02-20"]
          [mkPeriod (mkDate 2024 3 1) (mkDate 2024 3 4);
           mkPeriod (mkDate 2024 3 10) (mkDate 2024 3 15)]
          "Entity room has 1 conflicting reservation(s) in the requested period")) ∧
  get_available_periods
    (RangeConflicts "room" ("2024-03-01"%string, "2024-03-15"%string)
       [mkSummary 1 "ann" (mkDate 2024 3 5) (mkDate 2024 3 10) "2024-02-20"]
       [mkPeriod (mkDate 2024 3 1) (mkDate 2024 3 4);
        mkPeriod (mkDate 2024 3 10) (mkDate 2024 3 15)]
       "Entity room has 1 conflicting reservation(s) in the requested period")
  ≠ Some [mkPeriod (mkDate 2024 3 1) (mkDate 2024 3 5);
          mkPeriod (mkDate 2024 3 10) (mkDate 2024 3 15)].
Proof. split; [by vm_compute | discriminate]. Qed.

(** C2: on the scenario, 2024-03-04 is a day of the query that no
    conflict and no returned period holds, the intervals being read as
    half-open. *)
Theorem march_scenario_gap :
  ∃ calls result conflicts periods,
    range_check (backend_of march_reservation) "room" "2024-03-01" "2024-03-15"
      = (calls, Ret result) ∧
    get_conflicts result = Some conflicts ∧
    get_available_periods result = Some periods ∧
    in_query (mkDate 2024 3 1) (mkDate 2024 3 15) (mkDate 2024 3 4) = true ∧
    Forall (λ c, blocks (mkDate 2024 3 4) c = false) conflicts ∧
    Forall (λ p, in_period (mkDate 2024 3 4) p = false) periods.
Proof.
  eexists _, _, _, _. split; [by vm_compute|].
  do 3 (split; [reflexivity|]). split; repeat constructor.
Qed.

(** ** Inputs on which a claim fails *)


(** C5: for the query 9999-12-10..9999-12-20 the month of both dates
    is not fetched: no call is made. *)
Lemma last_month_not_fetched :
  strptime_ymd "9999-12-10" = Some (mkDate 9999 12 10) ∧
  strptime_ymd "9999-12-20" = Some (mkDate 9999 12 20) ∧
  date_ltb (mkDate 9999 12 10) (mkDate 9999 12 20) = true ∧
  month_between (mkDate 9999 12 10) (mkDate 9999 12 20) (9999, 12) ∧
  ("room"%string, 9999, 12)
    ∉ (range_check empty_backend "room" "9999-12-10" "9999-12-20").1.
Proof.
  do 3 (split; [reflexivity|]). split; [by vm_compute|].
  assert ((range_check empty_backend "room" "9999-12-10" "9999-12-20").1 = [])
    as -> by by vm_compute.
  apply not_elem_of_nil.
Qed.

(** C8: for the query 9999-12-01..9999-12-15 on a backend without any
    reservation the result is the error dictionary, not the available
    one. *)
Lemma last_month_not_available :
  strptime_ymd "9999-12-01" = Some (mkDate 9999 12 1) ∧
  strptime_ymd "9999-12-15" = Some (mkDate 9999 12 15) ∧
  date_ltb (mkDate 9999 12 1) (mkDate 9999 12 15) = true ∧
  range_check empty_backend "room" "9999-12-01" "9999-12-15"
    = ([], Ret (RangeError InvalidDateFormat)).
Proof. repeat split; by vm_compute. Qed.

(** C10: for the query 9999-11-20..9999-12-01, which ends on the first
    day of a month, that month is not fetched: no call is made. *)
Lemma last_month_end_not_fetched :
  strptime_ymd "9999-11-20" = Some (mkDate 9999 11 20) ∧
  strptime_ymd "9999-12-01" = Some (mkDate 9999 12 1) ∧
  date_ltb (mkDate 9999 11 20) (mkDate 9999 12 1) = true ∧
  ("room"%string, 9999, 12)
    ∉ (range_check empty_backend "room" "9999-11-20" "9999-12-01").1.
Proof.
  do 3 (split; [reflexivity|]).
  assert ((range_check empty_backend "room" "9999-11-20" "9999-12-01").1 = [])
    as -> by by vm_compute.
  apply not_elem_of_nil.
Qed.

(** ** The theorems on examples *)



Lemma first_match_occupies_witness :
  date_check (backend_of march_reservation) "room" "2024-03-09" =
  ([("room"%string, 2024, 3)],
   Ret (DateOccupied "2024-03-09" "room"
          (mkSummary 1 "ann" (mkDate 2024 3 5) (mkDate 2024 3 10) "2024-02-20"))) ∧
  date_check (backend_of march_reservation) "room" "2024-03-10" =
  ([("room"%string, 2024, 3)],
   Ret (DateAvailable "2024-03-10" "room" "Entity room is available on 2024-03-10")).
Proof.
  split.
  - destruct (first_match_occupies strptime_ymd isoformat_date
                (backend_of march_reservation) "room" "2024-03-09"
                (mkDate 2024 3 9) eq_refl) as [Hfound _].
    by apply (Hfound [] march_reservation [] (mkDate 2024 3 5) (mkDate 2024 3 10)).
  - destruct (first_match_occupies strptime_ymd isoformat_date
                (backend_of march_reservation) "room" "2024-03-10"
                (mkDate 2024 3 10) eq_refl) as [_ Hnone].
    apply Hnone. constructor; [|constructor].
    by exists (mkDate 2024 3 5), (mkDate 2024 3 10).
Defined.

Lemma fetched_months_witness :
  NoDup (range_check empty_backend "room" "2024-01-20" "2024-03-01").1 ∧
  ∀ e y m,
    (e, y, m) ∈ (range_check empty_backend "room" "2024-01-20" "2024-03-01").1 ↔
    e = "room"%string ∧ month_between (mkDate 2024 1 20) (mkDate 2024 3 1) (y, m).
Proof.
  apply (fetched_months strptime_ymd isoformat_date empty_backend
           strptime_ymd_valid "room" "2024-01-20" "2024-03-01");
    [reflexivity.. | by intros [? _]].
Defined.

Lemma end_month_fetched_witness :
  ("room"%string, 2024, 3)
    ∈ (range_check empty_backend "room" "2024-02-10" "2024-03-01").1.
Proof.
  apply (end_month_fetched strptime_ymd isoformat_date empty_backend
           strptime_ymd_valid "room" "2024-02-10" "2024-03-01"
           (mkDate 2024 2 10) (mkDate 2024 3 1));
    [reflexivity.. | by intros [? _] | reflexivity].
Defined.

Lemma range_without_conflicts_witness :
  ∃ calls result,
    range_check empty_backend "room" "2024-03-01" "2024-03-31"
      = (calls, Ret result) ∧
    result = RangeAvailable "room" ("2024-03-01"%string, "2024-03-31"%string)
               "Entity room is completely available from 2024-03-01 to 2024-03-31" ∧
    get_available result = Some true ∧
    get_requested_period result = Some ("2024-03-01"%string, "2024-03-31"%string) ∧
    get_available_periods result = None ∧ get_conflicts result = None.
Proof.
  apply (range_without_conflicts strptime_ymd isoformat_date empty_backend
           strptime_ymd_valid isoformat_date_valid "room" "2024-03-01" "2024-03-31"
           (mkDate 2024 3 1) (mkDate 2024 3 31));
    [reflexivity.. | by intros [? _] | ].
  by intros y m r _ ?%elem_of_nil.
Defined.



(** ** What the scan for free periods returns *)

Lemma date_leb_cases a b :
  date_leb a b = true → date_ltb a b = true ∨ a = b.
Proof.
  destruct a as [y m d], b as [y' m' d']. rewrite date_leb_le, date_ltb_lt.
  simpl. intros H.
  destruct (decide (y = y' ∧ m = m' ∧ d = d')) as [(-> & -> & ->)|]; [by right|].
  left. lia.
Qed.

Lemma date_leb_refl a : date_leb a a = true.
Proof. date_order. Qed.

Lemma date_leb_trans a b c :
  date_leb a b = true → date_leb b c = true → date_leb a c = true.
Proof. rewrite !date_leb_le. lia. Qed.

Lemma date_lt_le_trans a b c :
  date_ltb a b = true → date_leb b c = true → date_ltb a c = true.
Proof. rewrite !date_ltb_lt, date_leb_le. lia. Qed.

Lemma date_ltb_not_leb a b : date_ltb a b = true → date_leb b a = false.
Proof. intros H. date_order. Qed.

Lemma date_ltb_false_leb a b : date_ltb a b = false → date_leb b a = true.
Proof. intros H. date_order. Qed.

Lemma date_leb_antisym a b :
  date_leb a b = true → date_leb b a = true → a = b.
Proof.
  intros [Hlt|] %date_leb_cases Hba; [|done].
  by rewrite (date_ltb_not_leb _ _ Hlt) in Hba.
Qed.

Lemma unblocked_None conflicts d :
  blocking_reservation conflicts d = None ↔ unblocked conflicts d.
Proof.
  unfold unblocked, blocking_reservation. rewrite Forall_forall. split.
  - intros Hnone c Hc%list_elem_of_In. apply (find_none _ _ Hnone _ Hc).
  - intros Hall. destruct (find (blocks d) conflicts) as [c|] eqn:Hf; [|done].
    apply find_some in Hf as [Hc%list_elem_of_In Hb].
    by rewrite (Hall c Hc) in Hb.
Qed.

Section ScanResult.

Variable conflicts : list summary.
Variable end_dt : date.
Hypothesis end_valid : valid_date end_dt.
Hypothesis conflicts_valid : Forall valid_summary conflicts.

(** The run returned by the inner loop: free after its first day, and
    stopped by the end of the query or by a blocked next day. *)
Lemma extend_period_spec fuel period_end last :
  valid_date period_end →
  extend_period fuel conflicts end_dt period_end = Ret last →
  valid_date last ∧ date_leb period_end last = true ∧
  (date_leb period_end end_dt = true → date_leb last end_dt = true) ∧
  (∀ d, valid_date d → date_ltb period_end d = true → date_leb d last = true →
     unblocked conflicts d) ∧
  (last = end_dt ∨ date_ltb end_dt last = true ∨
   ∃ next, add_day last = Ret next ∧ ¬ unblocked conflicts next).
Proof.
  revert period_end. induction fuel as [|fuel IH]; intros pe Hpe; [done|].
  simpl. destruct (date_ltb pe end_dt) eqn:Hlt.
  - destruct (add_day_before pe end_dt Hpe end_valid Hlt) as [nd Hnd].
    rewrite Hnd. simpl.
    destruct (add_day_Ret _ _ Hpe Hnd) as (Hv & Hlater & Hnext).
    destruct (blocking_reservation conflicts nd) as [c|] eqn:Hb.
    + intros [= <-]. split; [done|]. split; [apply date_leb_refl|].
      split; [done|]. split.
      * intros d _ Hd Hd'. by rewrite (date_ltb_not_leb _ _ Hd) in Hd'.
      * right; right. exists nd. split; [done|].
        rewrite <- unblocked_None. congruence.
    + intros (Hlv & Hle & Hend & Hfree & Hstop)%IH; [|done].
      split; [done|]. split.
      { apply (date_leb_trans _ nd); [by apply date_ltb_leb|done]. }
      split; [intros _; apply Hend, Hnext; done|]. split; [|done].
      intros d Hd Hpd Hdl.
      destruct (date_leb_cases _ _ (Hnext d Hd Hpd)) as [Hlt'| <-].
      * by apply Hfree.
      * by apply unblocked_None.
  - intros [= <-]. split; [done|]. split; [apply date_leb_refl|].
    split; [done|]. split.
    + intros d _ Hd Hd'. by rewrite (date_ltb_not_leb _ _ Hd) in Hd'.
    + apply date_ltb_false_leb in Hlt.
      destruct (date_leb_cases _ _ Hlt) as [?| ->]; auto.
Qed.

Lemma scan_periods_spec fuel current_date available_periods periods :
  valid_date current_date →
  scan_periods fuel conflicts end_dt current_date available_periods = Ret periods →
  ∃ added, periods = available_periods ++ added ∧ scanned conflicts end_dt current_date added.
Proof.
  revert current_date available_periods.
  induction fuel as [|fuel IH]; intros cur acc Hcur; [done|].
  cbn [scan_periods]. destruct (date_ltb cur end_dt) eqn:Hlt.
  2:{ intros [= <-]. exists []. split; [by rewrite app_nil_r|].
      split; [done| by intros ?? ?%elem_of_nil | | done | done].
      intros d _ Hle Hd. exfalso.
      rewrite (date_le_lt_trans _ _ _ Hle Hd) in Hlt. done. }
  destruct (blocking_reservation conflicts cur) as [c|] eqn:Hb.
  - (* covered: the cursor jumps to the end date of the conflict *)
    pose proof (blocking_end_later _ _ _ Hb) as Hlater.
    apply blocking_reservation_Some in Hb as [Hin Hblocks].
    pose proof conflicts_valid as Hcv. rewrite Forall_forall in Hcv.
    destruct (Hcv c Hin) as [_ Hv].
    intros (added & -> & [Hbounds Hfree Hall Horder Hends])%IH; [|done].
    exists added. split; [done|]. split; [|done| |done|done].
    + eapply Forall_impl; [exact Hbounds|]. simpl.
      intros p (? & ? & Hle & ? & ? & ?). repeat split; try done.
      apply (date_leb_trans _ (end_date c)); [by apply date_ltb_leb|done].
    + intros d Hd Hle Hdlt Hun.
      destruct (date_ltb d (end_date c)) eqn:Hdc.
      * exfalso. unfold unblocked in Hun. rewrite Forall_forall in Hun.
        specialize (Hun c Hin). unfold blocks in *.
        apply andb_true_iff in Hblocks as [Hs _].
        by rewrite (date_leb_trans _ _ _ Hs Hle), Hdc in Hun.
      * apply Hall; [done | by apply date_ltb_false_leb | done..].
  - (* free: a period is added and the cursor moves past it *)
    destruct (extend_period _ _ _ _) as [last| |] eqn:Hext; [|done..].
    cbn [mbind outcome_bind].
    destruct (extend_period_spec _ _ _ Hcur Hext)
      as (Hlv & Hle & Hend & Hrun & Hstop).
    specialize (Hend (date_ltb_leb _ _ Hlt)).
    destruct (add_day last) as [next| |] eqn:Hadd; [|done..].
    destruct (add_day_Ret _ _ Hlv Hadd) as (Hnv & Hnlater & Hnnext).
    intros (added & -> & [Hbounds Hfree Hall Horder Hends])%IH; [|done].
    exists (mkPeriod cur last :: added). split; [by rewrite <- app_assoc|].
    assert (Hcn : date_ltb cur next = true) by by apply (date_le_lt_trans _ last).
    split.
    + constructor; [simpl; by repeat split; try apply date_leb_refl|].
      eapply Forall_impl; [exact Hbounds|]. simpl.
      intros p (? & ? & Hle' & ? & ? & ?). repeat split; try done.
      apply (date_leb_trans _ next); [by apply date_ltb_leb|done].
    + intros p d [->|Hp]%elem_of_cons Hd Hin; [|by eapply Hfree].
      unfold in_closed in Hin. simpl in Hin.
      apply andb_true_iff in Hin as [Hcd Hdl].
      destruct (date_leb_cases _ _ Hcd) as [?| <-]; [by apply Hrun|].
      by apply unblocked_None.
    + intros d Hd Hcd Hdlt Hun.
      destruct (date_leb d last) eqn:Hdl.
      * apply Exists_cons_hd. unfold in_closed. simpl. by rewrite Hcd, Hdl.
      * apply Exists_cons_tl. apply Hall; [done| |done..].
        apply Hnnext; [done|]. destruct (date_ltb last d) eqn:E; [done|].
        apply date_ltb_false_leb in E. congruence.
    + intros [|i] [|j] p q Hp Hq Hij; [lia| |lia|].
      * injection Hp as <-. simpl in *.
        apply list_elem_of_lookup_2 in Hq.
        rewrite Forall_forall in Hbounds.
        destruct (Hbounds q Hq) as (_ & _ & Hnq & _).
        by apply (date_lt_le_trans _ next).
      * simpl in *. apply (Horder i j); [done..|lia].
    + constructor; [|done]. cbn [period_end].
      destruct Hstop as [->|[Hgt|(? & [= <-] & ?)]]; [by left| |right; by exists next].
      by rewrite (date_ltb_not_leb _ _ Hgt) in Hend.
Qed.

End ScanResult.

(** ** Further properties of the range check *)

Section RangeResult.

Variable strptime : string → option date.
Variable fromisoformat_date : string → option date.
Variable get_reservations : string → Z → Z → list reservation.
Hypothesis strptime_valid : ∀ s d, strptime s = Some d → valid_date d.
Hypothesis fromisoformat_valid : ∀ s d, fromisoformat_date s = Some d → valid_date d.

Abbreviation check_range :=
  (check_date_range_availability strptime fromisoformat_date get_reservations).
Abbreviation check_single :=
  (check_date_availability strptime fromisoformat_date get_reservations).

(** A result with the 'conflicts' key comes from the scan of a
    non-empty list of conflicts. *)
Lemma range_scan_inv entity_id start_date end_date calls result conflicts :
  check_range entity_id start_date end_date = (calls, Ret result) →
  get_conflicts result = Some conflicts →
  ∃ start_dt end_dt periods,
    strptime start_date = Some start_dt ∧ strptime end_date = Some end_dt ∧
    date_ltb start_dt end_dt = true ∧
    Forall valid_summary conflicts ∧ conflicts ≠ [] ∧
    get_available_periods result = Some periods ∧
    scan_periods (days_fuel start_dt end_dt) conflicts end_dt start_dt []
      = Ret periods.
Proof.
  intros Hcheck Hcs.
  assert (Herr : get_error result = None) by by destruct result.
  destruct (check_range_inv _ _ _ _ _ _ _ _ Hcheck Herr)
    as (qs & qe & cur & ms & Hs & He & Hlt & _ & _ & _ & Hrec).
  apply reconcile_Ret in Hrec as (cs & Hfind & Hdef & _ & Hnil & Hcons).
  rewrite Hcs in Hdef. simpl in Hdef. subst cs.
  assert (Hne : conflicts ≠ []).
  { intros ->. destruct (Hnil eq_refl) as [Hnone _]. congruence. }
  destruct (Hcons Hne) as (ps & Hscan & _ & Hps & _).
  apply (find_conflicts_Ret _ fromisoformat_valid) in Hfind as (_ & Hvalid & _).
  by exists qs, qe, ps.
Qed.

(** X1: in a result with conflicts, the periods read as closed
    intervals (both dates included) hold exactly the free days of the
    query: a day from the start date up to, not including, the end date
    lies in a returned period if and only if no conflict holds it. *)
Theorem periods_hold_the_free_days entity_id start_date end_date calls result
    conflicts periods :
  check_range entity_id start_date end_date = (calls, Ret result) →
  get_conflicts result = Some conflicts →
  get_available_periods result = Some periods →
  ∃ start_dt end_dt,
    strptime start_date = Some start_dt ∧ strptime end_date = Some end_dt ∧
    ∀ d, valid_date d → in_query start_dt end_dt d = true →
      (Exists (λ p, in_closed d p = true) periods ↔ unblocked conflicts d).
Proof.
  intros Hcheck Hcs Hps.
  destruct (range_scan_inv _ _ _ _ _ _ Hcheck Hcs)
    as (qs & qe & ps & Hs & He & Hlt & Hvalid & _ & Hps' & Hscan).
  rewrite Hps in Hps'. injection Hps' as <-.
  exists qs, qe. do 2 (split; [done|]).
  destruct (scan_periods_spec conflicts qe (strptime_valid _ _ He) Hvalid _ _ _ _
              (strptime_valid _ _ Hs) Hscan) as (added & -> & Hscanned).
  simpl. intros d Hd [Hle Hdlt]%andb_true_iff. split.
  - intros (p & Hp & Hin)%Exists_exists.
    by apply (scanned_free _ _ _ _ Hscanned p d).
  - by apply (scanned_all _ _ _ _ Hscanned).
Qed.

(** X2: every returned period starts on or after the start date of
    the query and before its end date, ends on or after its own start
    and on or before the end date of the query; the periods are in
    increasing order, each one ending before the next one starts. *)
Theorem periods_ordered_in_query entity_id start_date end_date calls result periods :
  check_range entity_id start_date end_date = (calls, Ret result) →
  get_available_periods result = Some periods →
  ∃ start_dt end_dt,
    strptime start_date = Some start_dt ∧ strptime end_date = Some end_dt ∧
    (∀ p, p ∈ periods →
       date_leb start_dt (period_start p) = true ∧
       date_leb (period_start p) (period_end p) = true ∧
       date_ltb (period_start p) end_dt = true ∧
       date_leb (period_end p) end_dt = true) ∧
    ∀ i j p q, periods !! i = Some p → periods !! j = Some q → (i < j)%nat →
      date_ltb (period_end p) (period_start q) = true.
Proof.
  intros Hcheck Hps.
  assert (∃ cs, get_conflicts result = Some cs) as [cs Hcs].
  { destruct result; try done. by eexists. }
  destruct (range_scan_inv _ _ _ _ _ _ Hcheck Hcs)
    as (qs & qe & ps & Hs & He & Hlt & Hvalid & _ & Hps' & Hscan).
  rewrite Hps in Hps'. injection Hps' as <-.
  exists qs, qe. do 2 (split; [done|]).
  destruct (scan_periods_spec cs qe (strptime_valid _ _ He) Hvalid _ _ _ _
              (strptime_valid _ _ Hs) Hscan) as (added & -> & Hscanned).
  simpl. split.
  - intros p Hp. pose proof (scanned_bounds _ _ _ _ Hscanned) as Hb.
    rewrite Forall_forall in Hb. by destruct (Hb p Hp) as (_ & _ & ? & ? & ? & ?).
  - apply (scanned_order _ _ _ _ Hscanned).
Qed.

(** X3: no day from the start to the end of a returned period, both
    included, is held by a conflict; and the end of a period is the end
    date of the query, or the day before a day that a conflict holds. *)
Theorem period_ends_on_last_free_day entity_id start_date end_date calls result
    conflicts periods :
  check_range entity_id start_date end_date = (calls, Ret result) →
  get_conflicts result = Some conflicts →
  get_available_periods result = Some periods →
  ∃ end_dt,
    strptime end_date = Some end_dt ∧
    ∀ p, p ∈ periods →
      (∀ d, valid_date d → in_closed d p = true → unblocked conflicts d) ∧
      (period_end p = end_dt ∨
       ∃ next, add_day (period_end p) = Ret next ∧ ¬ unblocked conflicts next).
Proof.
  intros Hcheck Hcs Hps.
  destruct (range_scan_inv _ _ _ _ _ _ Hcheck Hcs)
    as (qs & qe & ps & Hs & He & Hlt & Hvalid & _ & Hps' & Hscan).
  rewrite Hps in Hps'. injection Hps' as <-.
  exists qe. split; [done|].
  destruct (scan_periods_spec conflicts qe (strptime_valid _ _ He) Hvalid _ _ _ _
              (strptime_valid _ _ Hs) Hscan) as (added & -> & Hscanned).
  simpl. intros p Hp. split.
  - intros d Hd Hin. by apply (scanned_free _ _ _ _ Hscanned p d).
  - pose proof (scanned_ends _ _ _ _ Hscanned) as Hends.
    rewrite Forall_forall in Hends. by apply Hends.
Qed.

(** X4: in a result without the 'error' key, 'available' is False
    exactly when the 'conflicts' key is present, its list being then
    non-empty, and exactly when some fetched record overlaps the
    query. *)
Theorem unavailable_iff_overlap entity_id start_date end_date calls result :
  check_range entity_id start_date end_date = (calls, Ret result) →
  get_error result = None →
  ∃ start_dt end_dt,
    strptime start_date = Some start_dt ∧ strptime end_date = Some end_dt ∧
    (get_available result = Some false ∨ get_available result = Some true) ∧
    (get_available result = Some false ↔
     ∃ conflicts, get_conflicts result = Some conflicts ∧ conflicts ≠ []) ∧
    (get_available result = Some false ↔
     ∃ y m r res_start res_end,
       (entity_id, y, m) ∈ calls ∧ r ∈ get_reservations entity_id y m ∧
       fromisoformat_date (startDate r) = Some res_start ∧
       fromisoformat_date (endDate r) = Some res_end ∧
       overlaps start_dt end_dt res_start res_end = true).
Proof.
  intros Hcheck Herr.
  destruct (check_range_inv _ _ _ _ _ _ _ _ Hcheck Herr)
    as (qs & qe & cur & ms & Hs & He & Hlt & _ & _ & -> & Hrec).
  exists qs, qe. do 2 (split; [done|]).
  apply reconcile_Ret in Hrec as (cs & Hfind & Hdef & _ & Hnil & Hcons).
  apply (find_conflicts_Ret _ fromisoformat_valid) in Hfind as (_ & _ & Hin).
  assert (Hflag : get_available result = Some false ↔ cs ≠ []).
  { destruct cs as [|c cs].
    - destruct (Hnil eq_refl) as (_ & _ & ->). split; [done|]. by intros [].
    - destruct Hcons as (ps & _ & _ & _ & ->); done. }
  split; [|split].
  - destruct (decide (cs = [])) as [Hc|Hc].
    + right. by destruct (Hnil Hc) as (_ & _ & ?).
    + left. by apply Hflag.
  - rewrite Hflag. split.
    + intros Hne. exists cs. split; [|done].
      by destruct (Hcons Hne) as (ps & _ & ? & _).
    + intros (cs' & Hcs' & Hne). rewrite Hcs' in Hdef. simpl in Hdef. by subst.
  - rewrite Hflag. split.
    + intros Hne. destruct cs as [|c cs]; [done|].
      destruct (proj1 (Hin c)) as (r & rs & re & Hr & Hrs & Hre & Hov & _);
        [by left|].
      apply elem_of_records_of in Hr as ([y m] & Hym & Hr).
      exists y, m, r, rs, re. repeat split; try done.
      by apply elem_of_calls_of.
    + intros (y & m & r & rs & re & [_ Hym]%elem_of_calls_of & Hr & Hrs & Hre & Hov).
      assert (summary_of r rs re ∈ cs) as Hc; [|by intros ->; apply elem_of_nil in Hc].
      apply Hin. exists r, rs, re. repeat split; try done.
      apply elem_of_records_of. by exists (y, m).
Qed.

(** The conflict loop as a comprehension, and its only exception. *)
Lemma find_conflicts_omap start_dt end_dt all_reservations conflicts :
  find_conflicts fromisoformat_date start_dt end_dt all_reservations = Ret conflicts →
  conflicts = omap (conflict_of fromisoformat_date start_dt end_dt) all_reservations.
Proof.
  revert conflicts. induction all_reservations as [|r rest IH]; intros cs.
  { by intros [= <-]. }
  cbn [find_conflicts omap list_omap]. unfold conflict_of at 1.
  destruct (fromisoformat_date (startDate r)) as [rs|]; [|done].
  destruct (fromisoformat_date (endDate r)) as [re|]; [|done]. cbn.
  destruct (find_conflicts _ _ _ rest) as [cs'| |]; [|done..]. cbn.
  rewrite <- (IH cs' eq_refl). fold (overlaps start_dt end_dt rs re).
  by destruct (overlaps start_dt end_dt rs re); intros [= <-].
Qed.

Lemma find_conflicts_unreadable start_dt end_dt all_reservations r :
  r ∈ all_reservations → ¬ readable fromisoformat_date r →
  find_conflicts fromisoformat_date start_dt end_dt all_reservations
    = Raise ValueError.
Proof.
  intros Hr Hbad. induction all_reservations as [|r' rest IH].
  { by apply elem_of_nil in Hr. }
  cbn [find_conflicts].
  destruct (fromisoformat_date (startDate r')) as [rs|] eqn:Hs; [|done].
  destruct (fromisoformat_date (endDate r')) as [re|] eqn:He; [|done]. cbn.
  apply elem_of_cons in Hr as [->|Hr].
  - destruct Hbad. by split; eexists.
  - by rewrite (IH Hr).
Qed.

(** X5: the conflicts are listed in the order of the calls and, within
    a call, of the records returned: one summary for each record that
    overlaps the query, a record returned twice being listed twice. *)
Theorem conflicts_in_fetch_order entity_id start_date end_date calls result :
  check_range entity_id start_date end_date = (calls, Ret result) →
  get_error result = None →
  ∃ start_dt end_dt,
    strptime start_date = Some start_dt ∧ strptime end_date = Some end_dt ∧
    default [] (get_conflicts result) =
    omap (conflict_of fromisoformat_date start_dt end_dt)
      (mjoin ((λ c : fetch_call, get_reservations c.1.1 c.1.2 c.2) <$> calls)).
Proof.
  intros Hcheck Herr.
  destruct (check_range_inv _ _ _ _ _ _ _ _ Hcheck Herr)
    as (qs & qe & cur & ms & Hs & He & Hlt & _ & _ & -> & Hrec).
  exists qs, qe. do 2 (split; [done|]).
  apply reconcile_Ret in Hrec as (cs & Hfind & -> & _).
  rewrite (find_conflicts_omap _ _ _ _ Hfind). f_equal.
  unfold records_of, calls_of. f_equal. rewrite <- list_fmap_compose.
  by apply list_fmap_ext.
Qed.

(** X6: a fetched record with a timestamp that cannot be read makes
    the range check return the 'Invalid date format' error, although
    both dates of the query are read; the months are fetched before. *)
Theorem unreadable_record_fails_range entity_id start_date end_date start_dt end_dt
    y m r :
  strptime start_date = Some start_dt → strptime end_date = Some end_dt →
  date_ltb start_dt end_dt = true → ¬ in_last_month end_dt →
  month_between start_dt end_dt (y, m) →
  r ∈ get_reservations entity_id y m → ¬ readable fromisoformat_date r →
  (check_range entity_id start_date end_date).2
    = Ret (RangeError InvalidDateFormat) ∧
  (entity_id, y, m) ∈ (check_range entity_id start_date end_date).1.
Proof.
  intros Hs He Hlt Hlast Hym Hr Hbad.
  destruct (check_range_eq strptime fromisoformat_date get_reservations
              strptime_valid entity_id _ _ _ _ Hs He Hlt Hlast)
    as (ms & Hms & ->).
  cbn [fst snd]. split.
  - unfold reconcile. rewrite (find_conflicts_unreadable _ _ _ r); [done| |done].
    apply elem_of_records_of. exists (y, m). split; [|done].
    by apply elem_of_elements, Hms.
  - apply elem_of_calls_of. split; [done|]. by apply elem_of_elements, Hms.
Qed.

(** X7: in the single-date check, a record with a timestamp that
    cannot be read, met before any record that holds the date, makes
    the check return the 'Invalid date format' error, after its one
    call. *)
Theorem unreadable_record_fails_date entity_id date check_date before r after :
  strptime date = Some check_date →
  get_reservations entity_id (year check_date) (month check_date)
    = before ++ r :: after →
  Forall (misses fromisoformat_date check_date) before →
  ¬ readable fromisoformat_date r →
  check_single entity_id date =
  ([(entity_id, year check_date, month check_date)],
   Ret (DateError InvalidDateFormat)).
Proof.
  intros Hd Hget Hbefore Hbad.
  rewrite (check_date_eq _ _ _ _ _ _ Hd), Hget. f_equal.
  assert (first_occupying fromisoformat_date check_date (before ++ r :: after)
          = Raise ValueError) as ->; [|done].
  clear Hget. induction Hbefore as [|r' rest (s & e & Hs' & He' & Hmiss) _ IH];
    cbn [app first_occupying].
  - destruct (fromisoformat_date (startDate r)) as [rs|] eqn:Hs; [|done].
    destruct (fromisoformat_date (endDate r)) as [re|] eqn:He; [|done].
    destruct Hbad. by split; eexists.
  - by rewrite Hs', He'; cbn [or_value_error mbind outcome_bind]; rewrite Hmiss.
Qed.

(** X9: a range query that does not end in December 9999 makes one
    call for each month from the month of its start date to the month
    of its end date: 12 * (years apart) + (months apart) + 1 calls. *)
Lemma month_of_index_pair y m :
  1 ≤ m ≤ 12 → month_of_index (y * 12 + (m - 1)) = (y, m).
Proof.
  intros Hm. unfold month_of_index. f_equal.
  - symmetry. apply (Z.div_unique _ _ _ (m - 1)); lia.
  - assert ((y * 12 + (m - 1)) mod 12 = m - 1) as ->; [|lia].
    symmetry. apply (Z.mod_unique _ _ y); lia.
Qed.

Theorem one_call_per_month entity_id start_date end_date start_dt end_dt :
  strptime start_date = Some start_dt → strptime end_date = Some end_dt →
  date_ltb start_dt end_dt = true → ¬ in_last_month end_dt →
  Z.of_nat (length (check_range entity_id start_date end_date).1)
    = 12 * (year end_dt - year start_dt) + (month end_dt - month start_dt) + 1.
Proof.
  intros Hs He Hlt Hlast.
  pose proof (valid_date_bounds _ (strptime_valid _ _ Hs)) as Hsb.
  pose proof (valid_date_bounds _ (strptime_valid _ _ He)) as Heb.
  destruct (check_range_eq strptime fromisoformat_date get_reservations
              strptime_valid entity_id _ _ _ _ Hs He Hlt Hlast)
    as (ms & Hms & ->).
  cbn [fst]. unfold calls_of. rewrite length_fmap.
  set (n := month_index end_dt - month_index start_dt + 1).
  assert (Hn : 0 < n).
  { apply date_ltb_lt in Hlt. unfold n, month_index. lia. }
  assert (ms = list_to_set (month_of_index <$> seqZ (month_index start_dt) n))
    as ->.
  { apply set_eq. intros [y m]. rewrite Hms, elem_of_list_to_set, list_elem_of_fmap.
    unfold month_between. simpl. split.
    - intros [Hm Hr]. exists (y * 12 + (m - 1)).
      split; [by rewrite month_of_index_pair|].
      apply elem_of_seqZ. unfold n, month_index. lia.
    - intros (i & Hi & Hin%elem_of_seqZ). unfold month_of_index in Hi.
      injection Hi as -> ->. unfold n, month_index in *.
      pose proof (Z.mod_pos_bound i 12). pose proof (Z.div_mod i 12). lia. }
  assert (Hnd : NoDup (month_of_index <$> seqZ (month_index start_dt) n)).
  { apply NoDup_fmap_2_strong; [|apply NoDup_seqZ].
    intros i j _ _ Hij. unfold month_of_index in Hij. injection Hij as Hd Hm.
    Z.to_euclidean_division_equations. lia. }
  pose proof (size_list_to_set (C := gset (Z * Z)) _ Hnd) as Hsize.
  unfold size, set_size in Hsize. simpl in Hsize. rewrite Hsize.
  rewrite length_fmap, length_seqZ. unfold n, month_index in *. lia.
Qed.

(** X10: the answer of the range check and its calls depend only on
    what the backend lists under the months from the month of the start
    date to the month of the end date. *)
Theorem other_months_do_not_matter (other : string → Z → Z → list reservation)
    entity_id start_date end_date start_dt end_dt :
  strptime start_date = Some start_dt → strptime end_date = Some end_dt →
  (∀ y m, month_between start_dt end_dt (y, m) →
     other entity_id y m = get_reservations entity_id y m) →
  check_date_range_availability strptime fromisoformat_date other
    entity_id start_date end_date
  = check_range entity_id start_date end_date.
Proof.
  intros Hs He Hsame.
  destruct (date_ltb start_dt end_dt) eqn:Hlt.
  2:{ unfold check_date_range_availability, try_except.
      rewrite Hs, He. cbn. by rewrite date_geb_ltb, Hlt. }
  destruct (decide (in_last_month end_dt)) as [Hlast|Hlast].
  { by rewrite !(range_check_last_month strptime _ _ _ _ _ _ _
                    strptime_valid Hs He Hlt Hlast). }
  destruct (months_of_query start_dt end_dt) as (ms & Hrep & Hloop & Hms);
    [by eauto..|].
  unfold check_date_range_availability, try_except.
  rewrite Hs, He. cbn. rewrite date_geb_ltb, Hlt. cbn.
  rewrite Hrep. cbn. rewrite Hloop. cbn.
  rewrite !fetch_all_eq. cbn. rewrite !app_nil_r.
  assert (records_of other entity_id (elements ms)
          = records_of get_reservations entity_id (elements ms)) as ->; [|done].
  unfold records_of. f_equal. apply list_fmap_ext.
  intros i [y m] Hi. simpl. apply Hsame, Hms, elem_of_elements.
  by eapply list_elem_of_lookup_2.
Qed.

(** X8: every range query that ends in December 9999 returns the
    'Invalid date format' error, without a call to the backend. *)
Theorem last_month_is_error entity_id start_date end_date start_dt end_dt :
  strptime start_date = Some start_dt → strptime end_date = Some end_dt →
  date_ltb start_dt end_dt = true → in_last_month end_dt →
  check_range entity_id start_date end_date
    = ([], Ret (RangeError InvalidDateFormat)).
Proof. intros. by eapply range_check_last_month. Qed.

(** What the loop of the single-date check has seen when it returns. *)
Lemma first_occupying_Ret check_date reservations found :
  first_occupying fromisoformat_date check_date reservations = Ret found →
  match found with
  | None => Forall (misses fromisoformat_date check_date) reservations
  | Some s =>
      ∃ before r after res_start res_end,
        reservations = before ++ r :: after ∧
        Forall (misses fromisoformat_date check_date) before ∧
        fromisoformat_date (startDate r) = Some res_start ∧
        fromisoformat_date (endDate r) = Some res_end ∧
        date_leb res_start check_date = true ∧
        date_ltb check_date res_end = true ∧
        s = summary_of r res_start res_end
  end.
Proof.
  revert found. induction reservations as [|r rest IH]; intros found.
  { by intros [= <-]. }
  cbn [first_occupying].
  destruct (fromisoformat_date (startDate r)) as [s|] eqn:Hs; [|done].
  destruct (fromisoformat_date (endDate r)) as [e|] eqn:He; [|done].
  cbn [or_value_error mbind outcome_bind].
  destruct (date_leb s check_date && date_ltb check_date e) eqn:Hb.
  - intros [= <-]. apply andb_true_iff in Hb as [Hle Hlt].
    by exists [], r, rest, s, e.
  - intros Hrest. specialize (IH _ Hrest).
    assert (Hmiss : misses fromisoformat_date check_date r) by by exists s, e.
    destruct found as [f|].
    + destruct IH as (before & r' & after & rs & re & -> & Hbefore & ?).
      exists (r :: before), r', after, rs, re. split; [done|].
      split; [by constructor|done].
    + by constructor.
Qed.

(** X11: when the single-date check answers that the date is
    available, it has made one call, for the month of the date, and
    every record of that month could be read and does not hold the
    date. *)
Theorem available_date_means_all_miss entity_id date calls date' entity_id' message :
  check_single entity_id date
    = (calls, Ret (DateAvailable date' entity_id' message)) →
  ∃ check_date,
    strptime date = Some check_date ∧
    calls = [(entity_id, year check_date, month check_date)] ∧
    Forall (misses fromisoformat_date check_date)
      (get_reservations entity_id (year check_date) (month check_date)).
Proof.
  destruct (strptime date) as [d|] eqn:Hd.
  - rewrite (check_date_eq _ _ _ _ _ _ Hd).
    destruct (first_occupying _ _ _) as [[s|]|[]|] eqn:Hf; cbn; try done.
    intros [= <- _ _ _]. exists d. do 2 (split; [done|]).
    apply (first_occupying_Ret _ _ _ Hf).
  - unfold check_date_availability, try_except. rewrite Hd. done.
Qed.

(** X12: when the single-date check answers that the date is
    occupied, the reservation it reports is the first record of the
    month of the date that holds it: the records before it could be
    read and do not hold the date. *)
Theorem occupied_date_reports_first_holder entity_id date calls date' entity_id'
    found :
  check_single entity_id date
    = (calls, Ret (DateOccupied date' entity_id' found)) →
  ∃ check_date before r after res_start res_end,
    strptime date = Some check_date ∧
    get_reservations entity_id (year check_date) (month check_date)
      = before ++ r :: after ∧
    Forall (misses fromisoformat_date check_date) before ∧
    fromisoformat_date (startDate r) = Some res_start ∧
    fromisoformat_date (endDate r) = Some res_end ∧
    date_leb res_start check_date = true ∧
    date_ltb check_date res_end = true ∧
    found = summary_of r res_start res_end.
Proof.
  destruct (strptime date) as [d|] eqn:Hd.
  - rewrite (check_date_eq _ _ _ _ _ _ Hd).
    destruct (first_occupying _ _ _) as [[s|]|[]|] eqn:Hf; cbn; try done.
    intros [= _ _ _ <-]. exists d.
    destruct (first_occupying_Ret _ _ _ Hf)
      as (before & r & after & rs & re & ?). by exists before, r, after, rs, re.
  - unfold check_date_availability, try_except. rewrite Hd. done.
Qed.

End RangeResult.

(** ** The base URL of the client *)

Local Open Scope string_scope.

Lemma rstrip_append_char c s : rstrip c (s ++ String c "") = rstrip c s.
Proof.
  induction s as [|a rest IH]; simpl; [by rewrite Ascii.eqb_refl|].
  by rewrite IH.
Qed.

Lemma rstrip_decompose c s : ∃ n, s = rstrip c s ++ repeat_char c n.
Proof.
  induction s as [|a rest [n IH]]; [by exists 0%nat|]. simpl.
  destruct (rstrip c rest) as [|b kept] eqn:Hr.
  - destruct (Ascii.eqb_spec a c) as [->|].
    + exists (S n). simpl. by rewrite IH at 1.
    + exists n. simpl. by rewrite IH at 1.
  - exists n. simpl. by rewrite IH at 1.
Qed.

Lemma rstrip_no_trailing c s u : rstrip c s ≠ u ++ String c "".
Proof.
  revert u. induction s as [|a rest IH]; intros u; simpl.
  { by destruct u. }
  destruct (rstrip c rest) as [|b kept] eqn:Hr.
  - destruct (Ascii.eqb_spec a c) as [->|Hne]; [by destruct u|].
    destruct u as [|a' [|??]]; simpl; [|done..]. by intros [= ->].
  - destruct u as [|a' u']; simpl; [done|].
    intros [= -> Hk]. by apply (IH u').
Qed.

(** X13: the base URL kept by the client is the given one without the
    slashes at its end: it does not end with a slash, and a slash added
    to the given URL changes nothing. *)
Theorem base_url_without_trailing_slash base_url :
  (∃ n, base_url = ReservationClient_base_url base_url ++ repeat_char "/" n) ∧
  (∀ u, ReservationClient_base_url base_url ≠ u ++ "/") ∧
  ReservationClient_base_url (base_url ++ "/")
    = ReservationClient_base_url base_url.
Proof.
  unfold ReservationClient_base_url. split; [apply rstrip_decompose|]. split.
  - apply rstrip_no_trailing.
  - apply rstrip_append_char.
Qed.

Local Close Scope string_scope.

(** ** Dates written and read back *)

Lemma digit_char_cases (k : Z) :
  0 ≤ k ≤ 9 →
  k = 0 ∨ k = 1 ∨ k = 2 ∨ k = 3 ∨ k = 4 ∨ k = 5 ∨ k = 6 ∨ k = 7 ∨ k = 8 ∨ k = 9.
Proof. lia. Qed.

Lemma digit_digit_char k : 0 ≤ k ≤ 9 → digit (digit_char k) = Some k.
Proof.
  intros Hk%digit_char_cases.
  repeat destruct Hk as [->|Hk]; [..|subst k]; reflexivity.
Qed.

Lemma digit_char_not_dash k : 0 ≤ k ≤ 9 → Ascii.eqb (digit_char k) "-" = false.
Proof.
  intros Hk%digit_char_cases.
  repeat destruct Hk as [->|Hk]; [..|subst k]; reflexivity.
Qed.

Lemma digit_char_not_space k : 0 ≤ k ≤ 9 → Ascii.eqb (digit_char k) " " = false.
Proof.
  intros Hk%digit_char_cases.
  repeat destruct Hk as [->|Hk]; [..|subst k]; reflexivity.
Qed.

Lemma checked_Some d : valid_date d → checked (year d) (month d) (day d) = Some d.
Proof. destruct d as [y m dd]. unfold checked, valid_date. simpl. by intros ->. Qed.

(** X14: a date with a year of four digits, written as
    [strftime('%Y-%m-%d')] writes it, is read back as the same date by
    [strptime(_, '%Y-%m-%d')] and by [fromisoformat]. *)
Theorem strptime_strftime d :
  valid_date d → 1000 ≤ year d →
  strptime_ymd (strftime_ymd d) = Some d ∧
  isoformat_date (strftime_ymd d) = Some d.
Proof.
  intros Hd Hy. pose proof (valid_date_bounds _ Hd) as Hb.
  pose proof (checked_Some d Hd) as Hchecked.
  destruct d as [y m dd]. simpl in *.
  unfold strftime_ymd, four_digits, two_digits. simpl year. simpl month. simpl day.
  set (y1 := y / 1000). set (y2 := y / 100 mod 10).
  set (y3 := y mod 100 / 10). set (y4 := y mod 100 mod 10).
  set (m1 := m / 10). set (m2 := m mod 10).
  set (d1 := dd / 10). set (d2 := dd mod 10).
  assert (0 ≤ y1 ≤ 9 ∧ 0 ≤ y2 ≤ 9 ∧ 0 ≤ y3 ≤ 9 ∧ 0 ≤ y4 ≤ 9 ∧
          0 ≤ m1 ≤ 9 ∧ 0 ≤ m2 ≤ 9 ∧ 0 ≤ d1 ≤ 9 ∧ 0 ≤ d2 ≤ 9 ∧
          1000 * y1 + 100 * y2 + 10 * y3 + y4 = y ∧
          10 * m1 + m2 = m ∧ 10 * d1 + d2 = dd)
    as (? & ? & ? & ? & ? & ? & ? & ? & Hyy & Hmm & Hdd).
  { subst y1 y2 y3 y4 m1 m2 d1 d2. Z.to_euclidean_division_equations. lia. }
  clearbody y1 y2 y3 y4 m1 m2 d1 d2.
  split.
  - unfold strptime_ymd. cbv [String.append list_ascii_of_string].
    rewrite Ascii.eqb_refl. rewrite !digit_digit_char by done.
    cbn [mbind option_bind strp_month].
    rewrite (digit_char_not_dash m2) by done. rewrite Ascii.eqb_refl.
    rewrite !digit_digit_char by done. cbn [mbind option_bind].
    rewrite Hmm. destruct (Z.leb_spec 1 m); [|lia].
    destruct (Z.leb_spec m 12); [|lia]. cbn [andb mbind option_bind strp_day].
    rewrite (digit_char_not_space d1) by done.
    rewrite !digit_digit_char by done. cbn [mbind option_bind].
    rewrite Hdd. destruct (Z.leb_spec 1 dd); [|lia].
    destruct (Z.leb_spec dd 31); [|lia]. cbn [andb]. by rewrite Hyy.
  - unfold isoformat_date. cbv [String.append list_ascii_of_string].
    rewrite !Ascii.eqb_refl. cbn [andb]. rewrite !digit_digit_char by done.
    cbn [mbind option_bind]. by rewrite Hyy, Hmm, Hdd.
Qed.

(** ** The further properties on examples *)

Lemma periods_hold_the_free_days_witness :
  Exists (λ p, in_closed (mkDate 2024 3 4) p = true) march_periods ↔
  unblocked march_conflicts (mkDate 2024 3 4).
Proof.
  destruct (periods_hold_the_free_days strptime_ymd isoformat_date
              (backend_of march_reservation) strptime_ymd_valid
              isoformat_date_valid "room" "2024-03-01" "2024-03-15"
              [("room"%string, 2024, 3)] march_result march_conflicts
              march_periods)
    as (qs & qe & Hs & He & Hdays); [by vm_compute | reflexivity | reflexivity |].
  injection Hs as <-. injection He as <-. apply Hdays; reflexivity.
Defined.

Lemma periods_ordered_in_query_witness :
  date_ltb (period_end (mkPeriod (mkDate 2024 3 1) (mkDate 2024 3 4)))
    (period_start (mkPeriod (mkDate 2024 3 10) (mkDate 2024 3 15))) = true.
Proof.
  destruct (periods_ordered_in_query strptime_ymd isoformat_date
              (backend_of march_reservation) strptime_ymd_valid
              isoformat_date_valid "room" "2024-03-01" "2024-03-15"
              [("room"%string, 2024, 3)] march_result march_periods)
    as (qs & qe & _ & _ & _ & Horder); [by vm_compute | reflexivity |].
  apply (Horder 0%nat 1%nat); [reflexivity | reflexivity | lia].
Defined.

Lemma period_ends_on_last_free_day_witness :
  mkDate 2024 3 4 = mkDate 2024 3 15 ∨
  ∃ next, add_day (mkDate 2024 3 4) = Ret next ∧
          ¬ unblocked march_conflicts next.
Proof.
  destruct (period_ends_on_last_free_day strptime_ymd isoformat_date
              (backend_of march_reservation) strptime_ymd_valid
              isoformat_date_valid "room" "2024-03-01" "2024-03-15"
              [("room"%string, 2024, 3)] march_result march_conflicts
              march_periods)
    as (qe & He & Hends); [by vm_compute | reflexivity | reflexivity |].
  injection He as <-.
  apply (Hends (mkPeriod (mkDate 2024 3 1) (mkDate 2024 3 4))).
  apply list_elem_of_here.
Defined.

Lemma unavailable_iff_overlap_witness :
  get_available march_result = Some false ↔
  ∃ conflicts, get_conflicts march_result = Some conflicts ∧ conflicts ≠ [].
Proof.
  destruct (unavailable_iff_overlap strptime_ymd isoformat_date
              (backend_of march_reservation) isoformat_date_valid
              "room" "2024-03-01" "2024-03-15"
              [("room"%string, 2024, 3)] march_result)
    as (qs & qe & _ & _ & _ & Hflag & _); [by vm_compute | reflexivity |].
  exact Hflag.
Defined.

Lemma conflicts_in_fetch_order_witness :
  default [] (get_conflicts march_result) =
  omap (conflict_of isoformat_date (mkDate 2024 3 1) (mkDate 2024 3 15))
    (mjoin ((λ c : fetch_call, backend_of march_reservation c.1.1 c.1.2 c.2)
              <$> [("room"%string, 2024, 3)])).
Proof.
  destruct (conflicts_in_fetch_order strptime_ymd isoformat_date
              (backend_of march_reservation) "room" "2024-03-01" "2024-03-15"
              [("room"%string, 2024, 3)] march_result)
    as (qs & qe & Hs & He & Horder); [by vm_compute | reflexivity |].
  injection Hs as <-. injection He as <-. exact Horder.
Defined.

Lemma unreadable_record_fails_range_witness :
  (range_check (backend_of garbled_reservation) "room" "2024-03-01" "2024-03-15").2
    = Ret (RangeError InvalidDateFormat) ∧
  ("room"%string, 2024, 3)
    ∈ (range_check (backend_of garbled_reservation) "room" "2024-03-01"
         "2024-03-15").1.
Proof.
  apply (unreadable_record_fails_range strptime_ymd isoformat_date
           (backend_of garbled_reservation) strptime_ymd_valid
           "room" "2024-03-01" "2024-03-15" (mkDate 2024 3 1) (mkDate 2024 3 15)
           2024 3 garbled_reservation).
  - reflexivity.
  - reflexivity.
  - reflexivity.
  - by intros [? _].
  - unfold month_between. simpl. lia.
  - apply list_elem_of_here.
  - intros [[x Hx] _]. discriminate.
Defined.

Lemma unreadable_record_fails_date_witness :
  date_check (backend_of garbled_reservation) "room" "2024-03-09" =
  ([("room"%string, 2024, 3)], Ret (DateError InvalidDateFormat)).
Proof.
  apply (unreadable_record_fails_date strptime_ymd isoformat_date
           (backend_of garbled_reservation) "room" "2024-03-09"
           (mkDate 2024 3 9) [] garbled_reservation []).
  - reflexivity.
  - reflexivity.
  - constructor.
  - intros [[x Hx] _]. discriminate.
Defined.

Lemma last_month_is_error_witness :
  range_check (backend_of march_reservation) "room" "9999-12-01" "9999-12-31"
    = ([], Ret (RangeError InvalidDateFormat)).
Proof.
  apply (last_month_is_error strptime_ymd isoformat_date
           (backend_of march_reservation) strptime_ymd_valid
           "room" "9999-12-01" "9999-12-31" (mkDate 9999 12 1) (mkDate 9999 12 31));
    [reflexivity.. | by split].
Defined.

Lemma one_call_per_month_witness :
  Z.of_nat (length (range_check empty_backend "room" "2023-11-20" "2024-03-01").1)
    = 12 * (2024 - 2023) + (3 - 11) + 1.
Proof.
  apply (one_call_per_month strptime_ymd isoformat_date empty_backend
           strptime_ymd_valid "room" "2023-11-20" "2024-03-01"
           (mkDate 2023 11 20) (mkDate 2024 3 1));
    [reflexivity.. | by intros [? _]].
Defined.

Lemma other_months_do_not_matter_witness :
  range_check busy_backend "room" "2024-03-01" "2024-03-15"
    = range_check (backend_of march_reservation) "room" "2024-03-01" "2024-03-15".
Proof.
  apply (other_months_do_not_matter strptime_ymd isoformat_date
           (backend_of march_reservation) strptime_ymd_valid busy_backend
           "room" "2024-03-01" "2024-03-15" (mkDate 2024 3 1) (mkDate 2024 3 15));
    [reflexivity | reflexivity |].
  intros y m [Hm Hrange]. simpl in *.
  assert (y = 2024 ∧ m = 3) as [-> ->] by lia. reflexivity.
Defined.

Lemma available_date_means_all_miss_witness :
  ∃ check_date,
    strptime_ymd "2024-03-10" = Some check_date ∧
    [("room"%string, 2024, 3)]
      = [("room"%string, year check_date, month check_date)] ∧
    Forall (misses isoformat_date check_date)
      (backend_of march_reservation "room" (year check_date) (month check_date)).
Proof.
  apply (available_date_means_all_miss strptime_ymd isoformat_date
           (backend_of march_reservation) "room" "2024-03-10"
           [("room"%string, 2024, 3)] "2024-03-10" "room"
           "Entity room is available on 2024-03-10").
  by vm_compute.
Defined.

Lemma occupied_date_reports_first_holder_witness :
  ∃ check_date before r after res_start res_end,
    strptime_ymd "2024-03-09" = Some check_date ∧
    backend_of march_reservation "room" (year check_date) (month check_date)
      = before ++ r :: after ∧
    Forall (misses isoformat_date check_date) before ∧
    isoformat_date (startDate r) = Some res_start ∧
    isoformat_date (endDate r) = Some res_end ∧
    date_leb res_start check_date = true ∧
    date_ltb check_date res_end = true ∧
    mkSummary 1 "ann" (mkDate 2024 3 5) (mkDate 2024 3 10) "2024-02-20"
      = summary_of r res_start res_end.
Proof.
  apply (occupied_date_reports_first_holder strptime_ymd isoformat_date
           (backend_of march_reservation) "room" "2024-03-09"
           [("room"%string, 2024, 3)] "2024-03-09" "room").
  by vm_compute.
Defined.

Lemma strptime_strftime_witness :
  strptime_ymd (strftime_ymd (mkDate 2024 2 29)) = Some (mkDate 2024 2 29) ∧
  isoformat_date (strftime_ymd (mkDate 2024 2 29)) = Some (mkDate 2024 2 29).
Proof. apply strptime_strftime; [reflexivity | simpl; lia]. Defined.
